(* ===================================================================== *)
(* transcription_handler.py: the download / transcribe / deliver pipeline *)
(* of the Whisper transcriber Telegram bot, as a shallow embedding.       *)
(*                                                                         *)
(* Python values that the handler inspects are an inductive type, the      *)
(* effects of a coroutine (log records, spawned processes, sleeps,         *)
(* Telegram calls, file removal) are appended to a trace carried by an     *)
(* explicit world, and an exception ends the run with the world reached.   *)
(* A [string] stands for a Python str (one [ascii] per character), a       *)
(* [list byte] for a Python bytes object. One message is handled by one    *)
(* task; the external programs can be started, and the calls to the bot    *)
(* return.                                                                 *)
(* ===================================================================== *)

From Stdlib Require Import ZArith Strings.String Strings.Ascii Strings.Byte.
From Stdlib Require Import DecimalString.
From stdpp Require Import gmap strings list fin_maps.

Set Warnings "-register-all".
#[local] Arguments String.append !s1 s2 : simpl nomatch.
Local Open Scope string_scope.
Local Open Scope Z_scope.
Local Open Scope list_scope.

(* --------------------------------------------------------------------- *)
(* Text helpers                                                           *)
(* --------------------------------------------------------------------- *)

(** str(n) for a Python int. *)
Definition str_of_Z (z : Z) : string := NilZero.string_of_int (Z.to_int z).

(** '\n' *)
Definition nl : string := String (ascii_of_nat 10) EmptyString.

(** The characters of a str, first to last. *)
Fixpoint chars (s : string) : list ascii :=
  match s with
  | EmptyString => []
  | String c s' => c :: chars s'
  end.

(** len(s) *)
Definition len (s : string) : nat := String.length s.

(* --------------------------------------------------------------------- *)
(* Exceptions and results                                                 *)
(* --------------------------------------------------------------------- *)

Inductive exn :=
| ValueError (msg : string)
| UnicodeDecodeError
| TypeError
| AttributeError
| FileNotFoundError (path : string).

Inductive result (A : Type) :=
| Ok (a : A)
| Raise (e : exn).
Arguments Ok {A} a.
Arguments Raise {A} e.

#[global] Instance result_ret : MRet result := fun _ a => Ok a.
#[global] Instance result_bind : MBind result := fun _ _ f r =>
  match r with
  | Ok a => f a
  | Raise e => Raise e
  end.

(* --------------------------------------------------------------------- *)
(* Python values as json.loads produces them                              *)
(* --------------------------------------------------------------------- *)

(** A value of the json module: None, bool, int, float, str, list, dict.
    Floats are kept abstract (type [F]); a dict is its items in order. *)
Inductive json (F : Type) :=
| JNull
| JBool (b : bool)
| JInt (z : Z)
| JFloat (f : F)
| JStr (s : string)
| JList (l : list (json F))
| JDict (items : list (string * json F)).
Arguments JNull {F}.
Arguments JBool {F} b.
Arguments JInt {F} z.
Arguments JFloat {F} f.
Arguments JStr {F} s.
Arguments JList {F} l.
Arguments JDict {F} items.

(** d.get(key, default) on the items of a dict. *)
Fixpoint dict_get {F} (items : list (string * json F)) (key : string)
    (default : json F) : json F :=
  match items with
  | [] => default
  | (k, v) :: rest => if String.eqb k key then v else dict_get rest key default
  end.

(** v.get(key, default): only a dict has the method. *)
Definition py_get {F} (v : json F) (key : string) (default : json F)
    : result (json F) :=
  match v with
  | JDict items => Ok (dict_get items key default)
  | _ => Raise AttributeError
  end.

(** The record built by fetch_youtube_details (filtered_details). *)
Record details (F : Type) := mk_details {
  title : json F;
  duration : json F;
  channel : json F;
  upload_date : json F;
  views : json F;
  likes : json F;
  average_rating : json F;
  comment_count : json F;
  channel_id : json F;
  video_id : json F;
  tags : json F;
  description : json F
}.
Arguments mk_details {F}.
Arguments title {F} d.
Arguments duration {F} d.
Arguments channel {F} d.
Arguments upload_date {F} d.
Arguments views {F} d.
Arguments likes {F} d.
Arguments average_rating {F} d.
Arguments comment_count {F} d.
Arguments channel_id {F} d.
Arguments video_id {F} d.
Arguments tags {F} d.
Arguments description {F} d.

(* --------------------------------------------------------------------- *)
(* The world a coroutine runs in                                          *)
(* --------------------------------------------------------------------- *)

Inductive level := INFO | WARNING | ERROR.

(** What communicate() and returncode give back for one process. *)
Record completed := mk_completed {
  returncode : Z;
  stdout : list byte;
  stderr : list byte
}.

(** Observable effects, in the order they happen. *)
Inductive event :=
| EvLog (lvl : level) (msg : string)
| EvSpawn (command : list string)
| EvSleep (seconds : Z)
| EvSendMessage (chat_id : Z) (text : string)
| EvSendDocument (chat_id : Z) (path : string)
| EvRemove (path : string).

(** [files] maps the path of each existing file to its size,
    [nspawn] counts the processes started so far. *)
Record world := mk_world {
  files : gmap string N;
  nspawn : nat;
  trace : list event
}.

(** A coroutine: from a world to its outcome and the world it leaves. *)
Definition M (A : Type) : Type := world -> result A * world.

#[global] Instance M_ret : MRet M := fun _ a w => (Ok a, w).
#[global] Instance M_bind : MBind M := fun _ _ f m w =>
  match m w with
  | (Ok a, w') => f a w'
  | (Raise e, w') => (Raise e, w')
  end.

Definition raise {A} (e : exn) : M A := fun w => (Raise e, w).

Definition emit (e : event) : M unit := fun w =>
  (Ok tt, mk_world (files w) (nspawn w) (trace w ++ [e])).

(** logger.info / logger.warning / logger.error *)
Definition log (lvl : level) (msg : string) : M unit := emit (EvLog lvl msg).

(** await asyncio.sleep(seconds) *)
Definition sleep (seconds : Z) : M unit := emit (EvSleep seconds).

(** os.path.exists(path) *)
Definition path_exists (path : string) : M bool := fun w =>
  (Ok (bool_decide (is_Some (files w !! path))), w).

(** os.path.getsize(path) *)
Definition path_getsize (path : string) : M N := fun w =>
  match files w !! path with
  | Some size => (Ok size, w)
  | None => (Raise (FileNotFoundError path), w)
  end.

(** os.remove(path) *)
Definition os_remove (path : string) : M unit := fun w =>
  match files w !! path with
  | Some _ =>
      (Ok tt, mk_world (delete path (files w)) (nspawn w)
                       (trace w ++ [EvRemove path]))
  | None => (Raise (FileNotFoundError path), w)
  end.

(** await bot.send_message(chat_id=..., text=...) *)
Definition send_message (chat_id : Z) (text : string) : M unit :=
  emit (EvSendMessage chat_id text).

(** await bot.send_document(chat_id=..., document=open(path, 'rb')) *)
Definition send_document (chat_id : Z) (path : string) : M unit := fun w =>
  match files w !! path with
  | Some _ => emit (EvSendDocument chat_id path) w
  | None => (Raise (FileNotFoundError path), w)
  end.

(* --------------------------------------------------------------------- *)
(* The fragment of the re module the handler uses                         *)
(* --------------------------------------------------------------------- *)

Module Re.

(** Character classes of the two patterns. *)
Inductive cclass :=
| CDot                          (* .   : anything but a newline *)
| CNotIn (excluded : list ascii) (* [^...] *)
| CNonSpace.                    (* \S *)

(** str.isspace() on one character. *)
Definition is_space (a : ascii) : bool :=
  let n := nat_of_ascii a in
  ((9 <=? n) && (n <=? 13) || (28 <=? n) && (n <=? 32)
   || (n =? 133) || (n =? 160))%nat.

Definition class_mem (c : cclass) (a : ascii) : bool :=
  match c with
  | CDot => negb (Ascii.eqb a (ascii_of_nat 10))
  | CNotIn excluded => negb (existsb (Ascii.eqb a) excluded)
  | CNonSpace => negb (is_space a)
  end.

Inductive regex :=
| RLit (p : string)                (* the characters of p, literally *)
| RSeq (r1 r2 : regex)             (* r1r2 *)
| RAlt (r1 r2 : regex)             (* r1|r2 *)
| ROpt (r : regex)                 (* r?  (greedy) *)
| RGroup (n : nat) (r : regex)     (* (r), the n-th capturing group *)
| RPlus (c : cclass)               (* c+  (greedy) *)
| RRepeat (n : nat) (c : cclass).  (* c{n} *)

(** Groups that took part in the match, most recently closed first. *)
Definition captures := list (nat * string).

(** What is left of [s] after the literal [p], if [s] starts with it. *)
Fixpoint lit_run (p s : string) : option string :=
  match p with
  | EmptyString => Some s
  | String a p' =>
      match s with
      | String b s' => if Ascii.eqb a b then lit_run p' s' else None
      | EmptyString => None
      end
  end.

(** c+ followed by [k]: the longest run first, then shorter ones. *)
Fixpoint plus_run {R} (c : cclass) (s : string) (k : string -> option R)
    : option R :=
  match s with
  | String a s' =>
      if class_mem c a then
        match plus_run c s' k with
        | Some x => Some x
        | None => k s'
        end
      else None
  | EmptyString => None
  end.

(** c{n}: what is left after exactly n characters of the class. *)
Fixpoint repeat_run (n : nat) (c : cclass) (s : string) : option string :=
  match n with
  | O => Some s
  | S n' =>
      match s with
      | String a s' => if class_mem c a then repeat_run n' c s' else None
      | EmptyString => None
      end
  end.

(** The part of [s] in front of its suffix [rest]. *)
Definition consumed (s rest : string) : string :=
  substring 0 (String.length s - String.length rest) s.

(** The backtracking matcher: [k] is what has to match after [r]. *)
Fixpoint run (r : regex) (s : string) (caps : captures)
    (k : string -> captures -> option (captures * string))
    : option (captures * string) :=
  match r with
  | RLit p =>
      match lit_run p s with
      | Some s' => k s' caps
      | None => None
      end
  | RSeq r1 r2 => run r1 s caps (fun s' caps' => run r2 s' caps' k)
  | RAlt r1 r2 =>
      match run r1 s caps k with
      | Some x => Some x
      | None => run r2 s caps k
      end
  | ROpt r1 =>
      match run r1 s caps k with
      | Some x => Some x
      | None => k s caps
      end
  | RGroup n r1 =>
      run r1 s caps (fun s' caps' => k s' ((n, consumed s s') :: caps'))
  | RPlus c => plus_run c s (fun s' => k s' caps)
  | RRepeat n c =>
      match repeat_run n c s with
      | Some s' => k s' caps
      | None => None
      end
  end.

(** re.match(r, s): the groups and the unmatched rest, or None. *)
Definition re_match (r : regex) (s : string) : option (captures * string) :=
  run r s [] (fun s' caps => Some (caps, s')).

(** m.group(n): None when the group took no part in the match. *)
Fixpoint group (n : nat) (caps : captures) : option string :=
  match caps with
  | [] => None
  | (i, g) :: rest => if Nat.eqb i n then Some g else group n rest
  end.

(** re.findall(r, s) for a pattern with one group: scan left to right,
    resume after each match. [skip] characters belong to the last match. *)
Fixpoint findall_from (r : regex) (skip : nat) (s : string) : list string :=
  match skip with
  | S skip' =>
      match s with
      | String _ s' => findall_from r skip' s'
      | EmptyString => []
      end
  | O =>
      match re_match r s with
      | Some (caps, rest) =>
          let found := default EmptyString (group 1 caps) in
          match s with
          | String _ s' =>
              found ::
              findall_from r (String.length s - String.length rest - 1) s'
          | EmptyString => [found]
          end
      | None =>
          match s with
          | String _ s' => findall_from r 0 s'
          | EmptyString => []
          end
      end
  end.

Definition findall (r : regex) (s : string) : list string :=
  findall_from r 0 s.

End Re.

Import Re.

(** r'(https?://\S+)' *)
Definition URL_REGEX : regex :=
  RGroup 1 (RSeq (RLit "http") (RSeq (ROpt (RLit "s"))
           (RSeq (RLit "://") (RPlus CNonSpace)))).

(** r'(https?://)?(www\.)?'
    '(youtube|youtu|youtube-nocookie)\.(com|be)/'
    '(watch\?v=|embed/|v/|.+\?v=)?([^&=%\?]{11})' *)
Definition YOUTUBE_REGEX : regex :=
  RSeq (ROpt (RGroup 1 (RSeq (RLit "http") (RSeq (ROpt (RLit "s")) (RLit "://")))))
  (RSeq (ROpt (RGroup 2 (RLit "www.")))
  (RSeq (RGroup 3 (RAlt (RLit "youtube")
                  (RAlt (RLit "youtu") (RLit "youtube-nocookie"))))
  (RSeq (RLit ".")
  (RSeq (RGroup 4 (RAlt (RLit "com") (RLit "be")))
  (RSeq (RLit "/")
  (RSeq (ROpt (RGroup 5 (RAlt (RLit "watch?v=")
                        (RAlt (RLit "embed/")
                        (RAlt (RLit "v/")
                              (RSeq (RPlus CDot) (RLit "?v=")))))))
        (RGroup 6 (RRepeat 11 (CNotIn ["&"; "="; "%"; "?"]%char))))))))).

(** extract_youtube_video_id(url) *)
Definition extract_youtube_video_id (url : string) : result (option string) :=
  match re_match YOUTUBE_REGEX url with
  | None => Raise (ValueError "Invalid YouTube URL")
  | Some (caps, _) => Ok (group 6 caps)
  end.

(* --------------------------------------------------------------------- *)
(* The fragment of os.path the handler uses (posixpath)                   *)
(* --------------------------------------------------------------------- *)

(** s.rfind(c): index of the last occurrence of c, -1 when there is none. *)
Fixpoint rfind (c : ascii) (s : string) : Z :=
  match s with
  | EmptyString => -1
  | String a s' =>
      let i := rfind c s' in
      if 0 <=? i then i + 1 else if Ascii.eqb a c then 0 else -1
  end.

(** s[i:j] for 0 <= i *)
Definition slice (i j : Z) (s : string) : string :=
  substring (Z.to_nat i) (Z.to_nat (j - i)) s.

(** s[i:] for 0 <= i *)
Definition slice_from (i : Z) (s : string) : string :=
  slice i (Z.of_nat (String.length s)) s.

(** os.path.basename(p): i = p.rfind('/') + 1; return p[i:] *)
Definition basename (p : string) : string :=
  let i := rfind "/" p + 1 in
  slice_from i p.

(** os.path.splitext(p)[0]: cut at the last dot, unless the file name
    has only dots in front of it. *)
Definition splitext_root (p : string) : string :=
  let sepIndex := rfind "/" p in
  let dotIndex := rfind "." p in
  if (sepIndex <? dotIndex)
     && existsb (fun a => negb (Ascii.eqb a "."))
                (chars (slice (sepIndex + 1) dotIndex p))
  then slice 0 dotIndex p
  else p.

(** An insertion-ordered dict from str to str, as its items. *)
Fixpoint dict_setitem (d : list (string * string)) (key value : string)
    : list (string * string) :=
  match d with
  | [] => [(key, value)]
  | (k, v) :: rest =>
      if String.eqb k key then (k, value) :: rest
      else (k, v) :: dict_setitem rest key value
  end.

(** for x in xs: body(x) *)
Fixpoint for_each {A} (body : A -> M unit) (xs : list A) : M unit :=
  match xs with
  | [] => mret tt
  | x :: rest => body x ;; for_each body rest
  end.

(** A pure computation that may raise, run inside a coroutine. *)
Definition lift {A} (r : result A) : M A := fun w => (r, w).

(* --------------------------------------------------------------------- *)
(* The handler                                                            *)
(* --------------------------------------------------------------------- *)

(** The Python runtime and the external programs are not part of the
    repository; the handler is stated over any behaviour they may have. *)
Class Env := {
  F : Type;                                (* float *)
  float_truthy : F -> bool;                (* bool(x) *)
  float_divmod : F -> Z -> F * F;          (* divmod(x, n) *)
  py_repr : json F -> string;              (* str() of a float, list or dict *)
  bytes_decode : list byte -> option string;
    (* b.decode(); None is UnicodeDecodeError *)
  json_loads : string -> string + json F;
    (* json.loads(s); inl is the text of a JSONDecodeError *)
  tool : nat -> list string -> gmap string N -> completed * gmap string N
    (* the n-th process started, its command line and the files it finds:
       what communicate() returns and the files it leaves *)
}.

Section Handler.

Context {E : Env}.

(** bool(v) *)
Definition truthy (v : json F) : bool :=
  match v with
  | JNull => false
  | JBool b => b
  | JInt z => negb (z =? 0)
  | JFloat f => float_truthy f
  | JStr s => negb (String.eqb s EmptyString)
  | JList l => match l with [] => false | _ => true end
  | JDict items => match items with [] => false | _ => true end
  end.

(** divmod(v, n) for a positive int n *)
Definition py_divmod (v : json F) (n : Z) : result (json F * json F) :=
  match v with
  | JInt z => Ok (JInt (z / n), JInt (z mod n))
  | JBool b => Ok (JInt (Z.b2z b / n), JInt (Z.b2z b mod n))
  | JFloat f => let (q, r) := float_divmod f n in Ok (JFloat q, JFloat r)
  | _ => Raise TypeError
  end.

(** str(v), as an f-string field formats it *)
Definition py_str (v : json F) : string :=
  match v with
  | JNull => "None"
  | JBool true => "True"
  | JBool false => "False"
  | JInt z => str_of_Z z
  | JStr s => s
  | _ => py_repr v
  end.

(** str(v) for the result of m.group(n) *)
Definition opt_str (v : option string) : string :=
  match v with
  | Some s => s
  | None => "None"
  end.

(** stderr.decode() / stdout.decode() *)
Definition decode (b : list byte) : M string :=
  match bytes_decode b with
  | Some s => mret s
  | None => raise UnicodeDecodeError
  end.

(** asyncio.create_subprocess_exec on the command line, followed by
    process.communicate() *)
Definition communicate (command : list string) : M completed := fun w =>
  let (p, files') := tool (nspawn w) command (files w) in
  (Ok p, mk_world files' (S (nspawn w)) (trace w ++ [EvSpawn command])).

(** format_duration(duration) *)
Definition format_duration (duration : json F) : result string :=
  if negb (truthy duration) then Ok "No duration available"
  else
    '(hours, remainder) ← py_divmod duration 3600;
    '(minutes, seconds) ← py_divmod remainder 60;
    if truthy hours then
      Ok (py_str hours +:+ "h " +:+ py_str minutes +:+ "m "
          +:+ py_str seconds +:+ "s")
    else
      Ok (py_str minutes +:+ "m " +:+ py_str seconds +:+ "s").

(** download_audio(url, output_path) *)
Definition download_audio (url output_path : string) : M unit :=
  log INFO ("Attempting to download audio from: " +:+ url) ;;
  communicate ["yt-dlp"; "--extract-audio"; "--audio-format"; "mp3";
               url; "-o"; output_path] ;;
  found ← path_exists output_path;
  if found : bool then log INFO ("Audio downloaded successfully: " +:+ output_path)
  else log ERROR ("Failed to download audio: " +:+ output_path).

(** USE_SNIPPET_FOR_DESCRIPTION and DESCRIPTION_MAX_LINES *)
Definition USE_SNIPPET_FOR_DESCRIPTION : bool := false.
Definition DESCRIPTION_MAX_LINES : nat := 30.

(** s.split(c) *)
Fixpoint split_on (c : ascii) (s : string) : list string :=
  match s with
  | EmptyString => [EmptyString]
  | String a s' =>
      if Ascii.eqb a c then EmptyString :: split_on c s'
      else
        match split_on c s' with
        | line :: rest => String a line :: rest
        | [] => [String a EmptyString]
        end
  end.

(** get_description_snippet(description, max_lines) *)
Definition get_description_snippet (description : json F) (max_lines : nat)
    : result (json F) :=
  match description with
  | JStr s =>
      let lines := split_on (ascii_of_nat 10) s in
      Ok (JStr (String.concat nl (take max_lines lines)))
  | _ => Raise AttributeError
  end.

(** The else branch of one attempt of fetch_youtube_details: parse the
    output of the tool and build filtered_details. *)
Definition parse_details (url : string) (p : completed)
    : M (option (details F)) :=
  text ← decode (stdout p);
  match json_loads text with
  | inl e =>
      log ERROR ("Error decoding JSON from yt-dlp output: " +:+ e) ;;
      mret None
  | inr video_details =>
      d ← lift (py_get video_details "duration" JNull);
      duration_formatted ← lift (format_duration d);
      description_text ←
        (if USE_SNIPPET_FOR_DESCRIPTION then
           t ← lift (py_get video_details "description"
                            (JStr "No description available"));
           lift (get_description_snippet t DESCRIPTION_MAX_LINES)
         else
           lift (py_get video_details "description"
                        (JStr "No description available")));
      v_title ← lift (py_get video_details "title" (JStr "No title available"));
      v_channel ← lift (py_get video_details "uploader"
                               (JStr "No channel information available"));
      v_upload_date ← lift (py_get video_details "upload_date"
                                   (JStr "No upload date available"));
      v_views ← lift (py_get video_details "view_count"
                             (JStr "No views available"));
      v_likes ← lift (py_get video_details "like_count"
                             (JStr "No likes available"));
      v_average_rating ← lift (py_get video_details "average_rating"
                                      (JStr "No rating available"));
      v_comment_count ← lift (py_get video_details "comment_count"
                                     (JStr "No comment count available"));
      v_channel_id ← lift (py_get video_details "channel_id"
                                  (JStr "No channel ID available"));
      v_video_id ← lift (py_get video_details "id"
                                (JStr "No video ID available"));
      v_tags ← lift (py_get video_details "tags"
                            (JList [JStr "No tags available"]));
      log INFO ("Fetched YouTube details successfully for URL: " +:+ url) ;;
      mret (Some (mk_details v_title (JStr duration_formatted) v_channel
                    v_upload_date v_views v_likes v_average_rating
                    v_comment_count v_channel_id v_video_id v_tags
                    description_text))
  end.

(** The command line of fetch_youtube_details. *)
Definition details_command (url : string) : list string :=
  ["yt-dlp"; "--user-agent";
   "Mozilla/5.0 (Windows NT 10.0; Win64; x64) AppleWebKit/537.36 (KHTML, like Gecko) Chrome/58.0.3029.110 Safari/537.3";
   "--dump-json"; url].

(** The loop of fetch_youtube_details: [remaining] iterations of
    range(max_retries) are left and the next one is [attempt]. *)
Fixpoint fetch_attempts (url : string) (max_retries base_delay : Z)
    (remaining : nat) (attempt : Z) : M (option (details F)) :=
  match remaining with
  | O => mret None
  | S remaining' =>
      p ← communicate (details_command url);
      if negb (bool_decide (stderr p = [])) && negb (returncode p =? 0) then
        msg ← decode (stderr p);
        log WARNING ("Attempt " +:+ str_of_Z (attempt + 1) +:+ " failed: "
                     +:+ msg) ;;
        (if attempt <? max_retries - 1 then
           let wait_time := base_delay * 2 ^ attempt in
           log INFO ("Retrying after " +:+ str_of_Z wait_time
                     +:+ " seconds...") ;;
           sleep wait_time
         else
           log ERROR "All retry attempts failed.") ;;
        fetch_attempts url max_retries base_delay remaining' (attempt + 1)
      else
        parse_details url p
  end.

(** fetch_youtube_details(url, max_retries=3, base_delay=5) *)
Definition fetch_youtube_details (url : string) (max_retries base_delay : Z)
    : M (option (details F)) :=
  fetch_attempts url max_retries base_delay (Z.to_nat max_retries) 0.

(** The verification loop of transcribe_audio over transcript_files. *)
Fixpoint verify_files (transcript_files created_files : list (string * string))
    : M (list (string * string)) :=
  match transcript_files with
  | [] => mret created_files
  | (fmt, path) :: rest =>
      found ← path_exists path;
      nonempty ← (if found : bool then
                    size ← path_getsize path; mret (0 <? size)%N
                  else mret false);
      if nonempty : bool then
        log INFO ("Transcription file created: " +:+ path) ;;
        verify_files rest (dict_setitem created_files fmt path)
      else
        log WARNING ("Expected transcription file not found or empty: "
                     +:+ path) ;;
        verify_files rest created_files
  end.

(** transcribe_audio(audio_path, output_dir, youtube_url) *)
Definition transcribe_audio (audio_path output_dir youtube_url : string)
    : M (list (string * string)) :=
  log INFO ("Starting transcription for: " +:+ audio_path) ;;
  p ← communicate ["whisper"; audio_path; "--output_dir"; output_dir];
  (if negb (returncode p =? 0) then
     log ERROR ("Whisper process failed with return code "
                +:+ str_of_Z (returncode p)) ;;
     msg ← decode (stderr p);
     log ERROR ("Whisper STDERR: " +:+ msg)
   else
     log INFO ("Whisper transcription completed for: " +:+ audio_path)) ;;
  let base_filename := splitext_root (basename audio_path) in
  let transcript_files :=
    [("txt", output_dir +:+ "/" +:+ base_filename +:+ ".txt");
     ("srt", output_dir +:+ "/" +:+ base_filename +:+ ".srt");
     ("vtt", output_dir +:+ "/" +:+ base_filename +:+ ".vtt")] in
  verify_files transcript_files [].

(** The end of one iteration of process_url_message, from the test of
    transcription_paths on: report or deliver, and remove the audio. *)
Definition deliver_and_clean_up (chat_id : Z) (audio_path : string)
    (transcription_paths : list (string * string)) : M unit :=
  match transcription_paths with
  | [] =>
      send_message chat_id "Failed to transcribe audio." ;;
      os_remove audio_path
  | _ =>
      send_message chat_id "Sending transcription files..." ;;
      for_each (fun item => send_document chat_id (snd item))
               transcription_paths ;;
      os_remove audio_path ;;
      send_message chat_id "There ya go, have a nice day! :-)"
  end.

(** One iteration of the loop of process_url_message. *)
Definition process_url (chat_id : Z) (url : string) : M unit :=
  if negb (bool_decide (is_Some (re_match YOUTUBE_REGEX url))) then
    send_message chat_id "Skipping non-YouTube URL."
  else
    send_message chat_id "Processing YouTube URL..." ;;
    video_id ← lift (extract_youtube_video_id url);
    let youtube_url := "https://www.youtube.com/watch?v=" +:+ opt_str video_id in
    send_message chat_id "Fetching YouTube video details..." ;;
    details ← fetch_youtube_details youtube_url 3 5;
    match details with
    | None => send_message chat_id "Failed to fetch video details."
    | Some details =>
        let title := title details in
        send_message chat_id
          ("Title: " +:+ py_str title +:+ nl
           +:+ "Downloading audio for transcription...") ;;
        let audio_path := opt_str video_id +:+ ".mp3" in
        let output_dir := "transcriptions" in
        download_audio youtube_url audio_path ;;
        found ← path_exists audio_path;
        if negb found then
          send_message chat_id "Audio file could not be downloaded."
        else
          send_message chat_id "Transcribing audio..." ;;
          transcription_paths ← transcribe_audio audio_path output_dir youtube_url;
          deliver_and_clean_up chat_id audio_path transcription_paths
    end.

(** process_url_message(message_text, bot, update); [chat_id] is
    update.effective_chat.id *)
Definition process_url_message (message_text : string) (chat_id : Z) : M unit :=
  let urls := findall URL_REGEX message_text in
  for_each (process_url chat_id) urls.

End Handler.

(* --------------------------------------------------------------------- *)
(* Environments for concrete runs                                         *)
(* --------------------------------------------------------------------- *)

Module Scenario.

(** bytes.decode() on ASCII input; other input is taken as undecodable. *)
Definition ascii_decode (b : list byte) : option string :=
  if forallb (fun x => (Byte.to_nat x <? 128)%nat) b
  then Some (string_of_list_byte b)
  else None.

(** json.loads on the fragment of JSON without floats and without escapes
    in strings; text outside the fragment is reported as an error. *)
Fixpoint skip_ws (s : string) : string :=
  match s with
  | String a s' =>
      if existsb (Ascii.eqb a) [" "; ascii_of_nat 9; ascii_of_nat 10;
                                ascii_of_nat 13]%char
      then skip_ws s' else s
  | EmptyString => s
  end.

Definition is_digit (a : ascii) : bool :=
  ((48 <=? nat_of_ascii a) && (nat_of_ascii a <=? 57))%nat.

Fixpoint read_digits (acc : Z) (s : string) : Z * string :=
  match s with
  | String a s' =>
      if is_digit a
      then read_digits (10 * acc + Z.of_nat (nat_of_ascii a - 48)) s'
      else (acc, s)
  | EmptyString => (acc, s)
  end.

Definition starts_number_tail (s : string) : bool :=
  match s with
  | String a _ => is_digit a || existsb (Ascii.eqb a) ["."; "e"; "E"]%char
  | EmptyString => false
  end.

Definition read_int (s : string) : option (Z * string) :=
  match s with
  | String "0" s' =>
      if starts_number_tail s' then None else Some (0, s')
  | String a _ =>
      if is_digit a then
        let (n, rest) := read_digits 0 s in
        if starts_number_tail rest then None else Some (n, rest)
      else None
  | EmptyString => None
  end.

Definition double_quote : ascii := ascii_of_nat 34.
Definition backslash : ascii := ascii_of_nat 92.

Fixpoint read_string (s : string) : option (string * string) :=
  match s with
  | String a s' =>
      if Ascii.eqb a double_quote then Some (EmptyString, s')
      else if Ascii.eqb a backslash || (nat_of_ascii a <? 32)%nat then None
      else
        match read_string s' with
        | Some (body, rest) => Some (String a body, rest)
        | None => None
        end
  | EmptyString => None
  end.

(** d[key] = value on the items of a dict *)
Fixpoint json_setitem {F} (items : list (string * json F)) (key : string)
    (value : json F) : list (string * json F) :=
  match items with
  | [] => [(key, value)]
  | (k, v) :: rest =>
      if String.eqb k key then (k, value) :: rest
      else (k, v) :: json_setitem rest key value
  end.

Fixpoint read_value {F} (fuel : nat) (s : string) : option (json F * string) :=
  match fuel with
  | O => None
  | S fuel' =>
      let fix read_elements (n : nat) (acc : list (json F)) (s : string)
          : option (json F * string) :=
        match n with
        | O => None
        | S n' =>
            match read_value fuel' (skip_ws s) with
            | Some (v, rest) =>
                match skip_ws rest with
                | String "," rest' => read_elements n' (acc ++ [v]) rest'
                | String "]" rest' => Some (JList (acc ++ [v]), rest')
                | _ => None
                end
            | None => None
            end
        end in
      let fix read_members (n : nat) (acc : list (string * json F))
          (s : string) : option (json F * string) :=
        match n with
        | O => None
        | S n' =>
            match skip_ws s with
            | String a s1 =>
                if negb (Ascii.eqb a double_quote) then None else
                match read_string s1 with
                | Some (key, s2) =>
                    match skip_ws s2 with
                    | String ":" s3 =>
                        match read_value fuel' (skip_ws s3) with
                        | Some (v, rest) =>
                            match skip_ws rest with
                            | String "," rest' =>
                                read_members n' (json_setitem acc key v) rest'
                            | String "}" rest' =>
                                Some (JDict (json_setitem acc key v), rest')
                            | _ => None
                            end
                        | None => None
                        end
                    | _ => None
                    end
                | None => None
                end
            | _ => None
            end
        end in
      match s with
      | String "n" _ =>
          match lit_run "null" s with
          | Some rest => Some (JNull, rest)
          | None => None
          end
      | String "t" _ =>
          match lit_run "true" s with
          | Some rest => Some (JBool true, rest)
          | None => None
          end
      | String "f" _ =>
          match lit_run "false" s with
          | Some rest => Some (JBool false, rest)
          | None => None
          end
      | String "-" s' =>
          match read_int s' with
          | Some (n, rest) => Some (JInt (- n), rest)
          | None => None
          end
      | String "[" s' =>
          match skip_ws s' with
          | String "]" rest => Some (JList [], rest)
          | _ => read_elements (String.length s') [] s'
          end
      | String "{" s' =>
          match skip_ws s' with
          | String "}" rest => Some (JDict [], rest)
          | _ => read_members (String.length s') [] s'
          end
      | String a s' =>
          if Ascii.eqb a double_quote then
            match read_string s' with
            | Some (body, rest) => Some (JStr body, rest)
            | None => None
            end
          else
            match read_int s with
            | Some (n, rest) => Some (JInt n, rest)
            | None => None
            end
      | EmptyString => None
      end
  end.

Definition loads {F} (s : string) : string + json F :=
  match read_value (S (String.length s)) (skip_ws s) with
  | Some (v, rest) =>
      match skip_ws rest with
      | EmptyString => inr v
      | _ => inl "Extra data"
      end
  | None => inl "Expecting value: line 1 column 1 (char 0)"
  end.

(** An environment without floats, around the given external programs. *)
Definition env (programs : nat -> list string -> gmap string N
                           -> completed * gmap string N) : Env := {|
  F := Empty_set;
  float_truthy := fun x => match x with end;
  float_divmod := fun x _ => match x with end;
  py_repr := fun _ => "...";
  bytes_decode := ascii_decode;
  json_loads := loads;
  tool := programs
|}.

Definition bytes_of (s : string) : list byte := list_byte_of_string s.

Definition w0 : world := mk_world ∅ 0 [].

(** The JSON text of an object with a title and a duration. *)
Definition quoted (s : string) : string :=
  String double_quote (s +:+ String double_quote EmptyString).

Definition metadata (duration : string) : string :=
  "{" +:+ quoted "title" +:+ ": " +:+ quoted "Demo" +:+ ", "
  +:+ quoted "duration" +:+ ": " +:+ duration +:+ "}".

(** yt-dlp exits 1 and prints nothing at all. *)
Definition silent_failure (n : nat) (command : list string)
    (fs : gmap string N) : completed * gmap string N :=
  (mk_completed 1 [] [], fs).

(** yt-dlp fails twice with a message, then prints the metadata. *)
Definition flaky (n : nat) (command : list string)
    (fs : gmap string N) : completed * gmap string N :=
  if (n <? 2)%nat
  then (mk_completed 1 [] (bytes_of "ERROR: unable to download"), fs)
  else (mk_completed 0 (bytes_of (metadata "3661"))
                     [], fs).

(** yt-dlp exits 0 with text that is not JSON. *)
Definition garbage (n : nat) (command : list string)
    (fs : gmap string N) : completed * gmap string N :=
  (mk_completed 0 (bytes_of "not json") [], fs).

(** yt-dlp prints metadata and writes the audio; whisper exits 1 with a
    message after writing the txt and srt transcripts, and no vtt. *)
Definition studio (n : nat) (command : list string)
    (fs : gmap string N) : completed * gmap string N :=
  match command with
  | [prog; audio_path; _; output_dir] =>
      if String.eqb prog "whisper" then
        let stem := splitext_root (basename audio_path) in
        (mk_completed 1 [] (bytes_of "FutureWarning"),
         <[output_dir +:+ "/" +:+ stem +:+ ".srt" := 20%N]>
           (<[output_dir +:+ "/" +:+ stem +:+ ".txt" := 10%N]> fs))
      else (mk_completed 0 [] [], fs)
  | [_; _; _; _; _; _; output_path] =>
      (mk_completed 0 [] [], <[output_path := 4096%N]> fs)
  | _ =>
      (mk_completed 0 (bytes_of (metadata "61")) [],
       fs)
  end.

End Scenario.

(* --------------------------------------------------------------------- *)
(* Vocabulary of the statements                                           *)
(* --------------------------------------------------------------------- *)

(** [rest] is what is left of [s] after some prefix. *)
Definition suffix_of (rest s : string) : Prop :=
  exists before, s = before +:+ rest.

(** The world [w] with the events [evs] added at the end of its trace. *)
Definition tell (w : world) (evs : list event) : world :=
  mk_world (files w) (nspawn w) (trace w ++ evs).

(** The seconds slept, in order. *)
Fixpoint sleeps (tr : list event) : list Z :=
  match tr with
  | [] => []
  | EvSleep seconds :: rest => seconds :: sleeps rest
  | _ :: rest => sleeps rest
  end.

(** The warnings logged, in order. *)
Fixpoint warnings (tr : list event) : list string :=
  match tr with
  | [] => []
  | EvLog WARNING msg :: rest => msg :: warnings rest
  | _ :: rest => warnings rest
  end.

(** The events of an attempt that ends in the retry branch. *)
Definition retry_events (url : string) (max_retries base_delay attempt : Z)
    (msg : string) : list event :=
  [EvSpawn (details_command url);
   EvLog WARNING ("Attempt " +:+ str_of_Z (attempt + 1) +:+ " failed: " +:+ msg)]
  ++ (if attempt <? max_retries - 1 then
        [EvLog INFO ("Retrying after " +:+ str_of_Z (base_delay * 2 ^ attempt)
                     +:+ " seconds...");
         EvSleep (base_delay * 2 ^ attempt)]
      else [EvLog ERROR "All retry attempts failed."]).

(** os.path.exists(path) and os.path.getsize(path) > 0 *)
Definition present (fs : gmap string N) (path : string) : bool :=
  match fs !! path with
  | Some size => (0 <? size)%N
  | None => false
  end.

(** transcript_files of transcribe_audio *)
Definition transcript_files (output_dir audio_path : string)
    : list (string * string) :=
  let base_filename := splitext_root (basename audio_path) in
  [("txt", output_dir +:+ "/" +:+ base_filename +:+ ".txt");
   ("srt", output_dir +:+ "/" +:+ base_filename +:+ ".srt");
   ("vtt", output_dir +:+ "/" +:+ base_filename +:+ ".vtt")].

(** The event is a log record. *)
Definition is_log (e : event) : Prop :=
  match e with
  | EvLog _ _ => True
  | _ => False
  end.

(** The events of the end of an iteration whose audio file is there. *)
Definition closing_events (chat : Z) (audio_path : string)
    (created : list (string * string)) : list event :=
  match created with
  | [] =>
      [EvSendMessage chat "Failed to transcribe audio."; EvRemove audio_path]
  | _ =>
      [EvSendMessage chat "Sending transcription files..."]
      ++ map (fun item => EvSendDocument chat (snd item)) created
      ++ [EvRemove audio_path;
          EvSendMessage chat "There ya go, have a nice day! :-)"]
  end.

(** The outcome is a raised ValueError. *)
Definition is_value_error {A} (r : result A) : bool :=
  match r with
  | Raise (ValueError _) => true
  | _ => false
  end.

(** A coroutine that never ends in a ValueError. *)
Definition no_value_error {A} (m : M A) : Prop :=
  forall w, is_value_error (fst (m w)) = false.

Section Outcomes.

Context {E : Env}.

(** filtered_details for the items of the parsed object. *)
Definition filtered_details (items : list (string * json F))
    (duration_formatted : string) : details F :=
  mk_details
    (dict_get items "title" (JStr "No title available"))
    (JStr duration_formatted)
    (dict_get items "uploader" (JStr "No channel information available"))
    (dict_get items "upload_date" (JStr "No upload date available"))
    (dict_get items "view_count" (JStr "No views available"))
    (dict_get items "like_count" (JStr "No likes available"))
    (dict_get items "average_rating" (JStr "No rating available"))
    (dict_get items "comment_count" (JStr "No comment count available"))
    (dict_get items "channel_id" (JStr "No channel ID available"))
    (dict_get items "id" (JStr "No video ID available"))
    (dict_get items "tags" (JList [JStr "No tags available"]))
    (dict_get items "description" (JStr "No description available")).

(** The iteration for [url] gets as far as a returned transcription:
    the URL matches, the details are fetched, the download leaves the
    audio file [audio_path], and transcribe_audio returns [created] in
    world [w3]. *)
Definition transcribed (chat : Z) (url : string) (w : world)
    (audio_path : string) (created : list (string * string)) (w3 : world)
    : Prop :=
  exists caps rest d w1 w2,
    let video_id := opt_str (group 6 caps) in
    let youtube_url := "https://www.youtube.com/watch?v=" +:+ video_id in
    re_match YOUTUBE_REGEX url = Some (caps, rest) /\
    audio_path = video_id +:+ ".mp3" /\
    fetch_youtube_details youtube_url 3 5
      (tell w [EvSendMessage chat "Processing YouTube URL...";
               EvSendMessage chat "Fetching YouTube video details..."])
      = (Ok (Some d), w1) /\
    download_audio youtube_url audio_path
      (tell w1 [EvSendMessage chat
                  ("Title: " +:+ py_str (title d) +:+ nl
                   +:+ "Downloading audio for transcription...")])
      = (Ok tt, w2) /\
    is_Some (files w2 !! audio_path) /\
    transcribe_audio audio_path "transcriptions" youtube_url
      (tell w2 [EvSendMessage chat "Transcribing audio..."])
      = (Ok created, w3).

End Outcomes.

(** divmod(v, n) is defined: v is an int, a bool or a float. *)
Definition has_divmod {F} (v : json F) : bool :=
  match v with
  | JInt _ | JBool _ | JFloat _ => true
  | _ => false
  end.

(** The command lines of the processes started, in order. *)
Fixpoint spawns (tr : list event) : list (list string) :=
  match tr with
  | [] => []
  | EvSpawn command :: rest => command :: spawns rest
  | _ :: rest => spawns rest
  end.

(** The texts sent with send_message, in order. *)
Fixpoint messages (tr : list event) : list string :=
  match tr with
  | [] => []
  | EvSendMessage _ text :: rest => text :: messages rest
  | _ :: rest => messages rest
  end.

(** base_delay * 2^first, base_delay * 2^(first+1), ... ([count] delays) *)
Fixpoint backoff_delays (base_delay first : Z) (count : nat) : list Z :=
  match count with
  | O => []
  | S count' =>
      base_delay * 2 ^ first :: backoff_delays base_delay (first + 1) count'
  end.

(** An event that stays inside the process: a log record, a process
    started or a sleep; not a call to the bot, not a file removed. *)
Definition internal_event (e : event) : Prop :=
  match e with
  | EvLog _ _ | EvSpawn _ | EvSleep _ => True
  | _ => False
  end.

(** Whatever the world, the coroutine only adds events of kind [P]. *)
Definition appends {A} (P : event -> Prop) (m : M A) : Prop :=
  forall w, exists evs, trace (snd (m w)) = trace w ++ evs /\ Forall P evs.

(** Whatever the world, the coroutine only adds log records to it. *)
Definition only_logs {A} (m : M A) : Prop :=
  forall w, exists logs, snd (m w) = tell w logs /\ Forall is_log logs.

(** The character [c] does not occur in [s]. *)
Definition free_of (c : ascii) (s : string) : Prop :=
  forallb (fun a => negb (Ascii.eqb a c)) (chars s) = true.

(** [s] is empty or begins with a character outside the class. *)
Definition stops (c : cclass) (s : string) : Prop :=
  match s with
  | EmptyString => True
  | String a _ => class_mem c a = false
  end.

(** Whatever the world, the coroutine starts at most [n] processes and
    sleeps at most [k] times. *)
Definition costs {A} (n k : nat) (m : M A) : Prop :=
  forall w,
    (nspawn (snd (m w)) <= nspawn w + n)%nat /\
    (length (sleeps (trace (snd (m w)))) <= length (sleeps (trace w)) + k)%nat.

Section Conditions.

Context {E : Env}.

(** A process that sends fetch_youtube_details into its retry branch. *)
Definition retryable (p : completed) : Prop :=
  stderr p <> [] /\ returncode p <> 0 /\ is_Some (bytes_decode (stderr p)).

(** The iteration for [url] gets as far as the download: the URL
    matches, the details [d] are fetched and download_audio has run for
    [audio_path], leaving the world [w2]. *)
Definition downloaded (chat : Z) (url : string) (w : world)
    (youtube_url audio_path : string) (w2 : world) : Prop :=
  exists caps rest d w1,
    let video_id := opt_str (group 6 caps) in
    re_match YOUTUBE_REGEX url = Some (caps, rest) /\
    youtube_url = "https://www.youtube.com/watch?v=" +:+ video_id /\
    audio_path = video_id +:+ ".mp3" /\
    fetch_youtube_details youtube_url 3 5
      (tell w [EvSendMessage chat "Processing YouTube URL...";
               EvSendMessage chat "Fetching YouTube video details..."])
      = (Ok (Some d), w1) /\
    download_audio youtube_url audio_path
      (tell w1 [EvSendMessage chat
                  ("Title: " +:+ py_str (title d) +:+ nl
                   +:+ "Downloading audio for transcription...")])
      = (Ok tt, w2).

(** The loop of fetch_youtube_details gets from attempt [attempt] in
    world [w] to attempt [attempt'] in world [w'] through attempts that
    all end in the retry branch: each starts the process in the world the
    one before left, finds error output and a non-zero code, and logs the
    decoded output. *)
Inductive retried (url : string) (max_retries base_delay : Z)
    : Z -> world -> Z -> world -> Prop :=
| retried_none attempt w :
    retried url max_retries base_delay attempt w attempt w
| retried_again attempt w p fs' msg attempt' w' :
    tool (nspawn w) (details_command url) (files w) = (p, fs') ->
    stderr p <> [] -> returncode p <> 0 ->
    bytes_decode (stderr p) = Some msg ->
    retried url max_retries base_delay (attempt + 1)
      (mk_world fs' (S (nspawn w))
         (trace w ++ retry_events url max_retries base_delay attempt msg))
      attempt' w' ->
    retried url max_retries base_delay attempt w attempt' w'.

End Conditions.

(** More programs for concrete runs. *)
Module Cases.

(** yt-dlp fails every time, with a message. *)
Definition outage (n : nat) (command : list string)
    (fs : gmap string N) : completed * gmap string N :=
  (mk_completed 1 [] (Scenario.bytes_of "ERROR: HTTP Error 429"), fs).

(** yt-dlp exits 0 and prints a JSON list. *)
Definition listing (n : nat) (command : list string)
    (fs : gmap string N) : completed * gmap string N :=
  (mk_completed 0 (Scenario.bytes_of "[1, 2]") [], fs).

(** yt-dlp prints metadata but writes no audio file. *)
Definition no_audio (n : nat) (command : list string)
    (fs : gmap string N) : completed * gmap string N :=
  (mk_completed 0 (Scenario.bytes_of (Scenario.metadata "61")) [], fs).

(** As [Scenario.studio], but whisper exits 1 with error output that is
    not text and writes nothing. *)
Definition crash (n : nat) (command : list string)
    (fs : gmap string N) : completed * gmap string N :=
  match command with
  | [prog; _; _; _] =>
      if String.eqb prog "whisper"
      then (mk_completed 1 [] [Byte.xff], fs)
      else Scenario.studio n command fs
  | _ => Scenario.studio n command fs
  end.

(** yt-dlp exits 0 and prints an empty JSON object. *)
Definition empty_object (n : nat) (command : list string)
    (fs : gmap string N) : completed * gmap string N :=
  (mk_completed 0 (Scenario.bytes_of "{}") [], fs).

(** yt-dlp is killed by signal 9 after printing the metadata, and has
    written nothing to its error output. *)
Definition killed (n : nat) (command : list string)
    (fs : gmap string N) : completed * gmap string N :=
  (mk_completed (-9) (Scenario.bytes_of (Scenario.metadata "61")) [], fs).

(** As [Scenario.studio], but whisper writes the txt transcript and
    deletes the audio file it was given. *)
Definition devour (n : nat) (command : list string)
    (fs : gmap string N) : completed * gmap string N :=
  match command with
  | [prog; audio_path; _; output_dir] =>
      if String.eqb prog "whisper" then
        let stem := splitext_root (basename audio_path) in
        (mk_completed 0 [] [],
         delete audio_path
           (<[output_dir +:+ "/" +:+ stem +:+ ".txt" := 10%N]> fs))
      else Scenario.studio n command fs
  | _ => Scenario.studio n command fs
  end.

(** yt-dlp exits 0 and prints a byte that is not text. *)
Definition binary (n : nat) (command : list string)
    (fs : gmap string N) : completed * gmap string N :=
  (mk_completed 0 [Byte.xff] [], fs).

(** As [Scenario.studio], whisper writing the txt and srt transcripts
    and exiting 1, but with error output that is not text. *)
Definition wreck (n : nat) (command : list string)
    (fs : gmap string N) : completed * gmap string N :=
  match command with
  | [prog; audio_path; _; output_dir] =>
      if String.eqb prog "whisper" then
        let stem := splitext_root (basename audio_path) in
        (mk_completed 1 [] [Byte.xff],
         <[output_dir +:+ "/" +:+ stem +:+ ".srt" := 20%N]>
           (<[output_dir +:+ "/" +:+ stem +:+ ".txt" := 10%N]> fs))
      else Scenario.studio n command fs
  | _ => Scenario.studio n command fs
  end.

End Cases.

(* ===================================================================== *)
(* Facts                                                                  *)
(* ===================================================================== *)

(* --------------------------------------------------------------------- *)
(* Strings                                                                *)
(* --------------------------------------------------------------------- *)

Lemma append_assoc (a b c : string) : (a +:+ b) +:+ c = a +:+ (b +:+ c).
Proof. induction a as [|x a IH]; simpl; [reflexivity | now rewrite IH]. Qed.

Lemma length_append (a b : string) :
  String.length (a +:+ b) = (String.length a + String.length b)%nat.
Proof. induction a as [|x a IH]; simpl; [reflexivity | now rewrite IH]. Qed.

Lemma substring_prefix (a b : string) :
  substring 0 (String.length a) (a +:+ b) = a.
Proof.
  induction a as [|x a IH]; simpl.
  - destruct b; reflexivity.
  - now rewrite IH.
Qed.

(** Two texts that end in different endings of one length differ. *)
Lemma append_inj_suffix (a b s1 s2 : string) :
  String.length s1 = String.length s2 ->
  a +:+ s1 = b +:+ s2 -> a = b /\ s1 = s2.
Proof.
  revert b. induction a as [|x a IH]; intros b Hlen Heq.
  - destruct b as [|y b]; [now split|].
    simpl in Heq. apply (f_equal String.length) in Heq.
    simpl in Heq. rewrite length_append in Heq. lia.
  - destruct b as [|y b].
    + simpl in Heq. apply (f_equal String.length) in Heq.
      simpl in Heq. rewrite length_append in Heq. lia.
    + simpl in Heq. injection Heq as -> Heq.
      destruct (IH b Hlen Heq) as [-> ->]. now split.
Qed.

(* --------------------------------------------------------------------- *)
(* The matcher                                                            *)
(* --------------------------------------------------------------------- *)

Lemma suffix_of_refl (s : string) : suffix_of s s.
Proof. now exists EmptyString. Qed.

Lemma suffix_of_trans (a b c : string) :
  suffix_of a b -> suffix_of b c -> suffix_of a c.
Proof.
  intros [p ->] [q ->]. exists (q +:+ p). now rewrite append_assoc.
Qed.

Lemma suffix_of_tail (x : ascii) (rest s : string) :
  suffix_of rest s -> suffix_of rest (String x s).
Proof. intros [p ->]. now exists (String x p). Qed.

Create HintDb re.
#[local] Hint Resolve suffix_of_refl suffix_of_tail : re.

Lemma lit_run_suffix (p s rest : string) :
  lit_run p s = Some rest -> suffix_of rest s.
Proof.
  revert s. induction p as [|a p IH]; intros s Hrun; simpl in Hrun.
  - injection Hrun as ->. auto with re.
  - destruct s as [|b s]; [discriminate|].
    destruct (Ascii.eqb a b); [|discriminate]. auto with re.
Qed.

Lemma plus_run_reaches {R} (c : cclass) (s : string)
    (k : string -> option R) (x : R) :
  plus_run c s k = Some x ->
  exists rest, k rest = Some x /\ suffix_of rest s.
Proof.
  induction s as [|a s IH]; simpl; [discriminate|].
  destruct (class_mem c a); [|discriminate].
  destruct (plus_run c s k) as [y|] eqn:Hmore.
  - intros [= ->]. destruct (IH eq_refl) as (rest & Hk & Hsuf).
    exists rest. auto with re.
  - intros Hk. exists s. auto with re.
Qed.

(** c{n} takes exactly n characters of the class off the front. *)
Lemma repeat_run_spec (n : nat) (c : cclass) (s rest : string) :
  repeat_run n c s = Some rest ->
  exists taken,
    s = taken +:+ rest /\ String.length taken = n /\
    forallb (class_mem c) (chars taken) = true.
Proof.
  revert s. induction n as [|n IH]; intros s Hrun; simpl in Hrun.
  - injection Hrun as ->. now exists EmptyString.
  - destruct s as [|a s]; [discriminate|].
    destruct (class_mem c a) eqn:Hmem; [|discriminate].
    destruct (IH s Hrun) as (taken & -> & Hlen & Hall).
    exists (String a taken). simpl. rewrite Hmem, Hall, Hlen. auto.
Qed.

Lemma consumed_append (taken rest : string) :
  consumed (taken +:+ rest) rest = taken.
Proof.
  unfold consumed. rewrite length_append.
  replace (String.length taken + String.length rest - String.length rest)%nat
    with (String.length taken) by lia.
  apply substring_prefix.
Qed.

(** A successful run hands its result over through the continuation,
    called on a suffix of the text. *)
Lemma run_reaches (r : regex) :
  forall s caps k res,
    run r s caps k = Some res ->
    exists rest caps', k rest caps' = Some res /\ suffix_of rest s.
Proof.
  induction r as [p | r1 IH1 r2 IH2 | r1 IH1 r2 IH2 | r1 IH1 | n r1 IH1
                  | c | n c]; intros s caps k res Hrun; simpl in Hrun.
  - destruct (lit_run p s) as [s'|] eqn:Hlit; [|discriminate].
    exists s', caps. eauto using lit_run_suffix.
  - destruct (IH1 _ _ _ _ Hrun) as (s1 & caps1 & Hk1 & Hs1).
    destruct (IH2 _ _ _ _ Hk1) as (s2 & caps2 & Hk2 & Hs2).
    exists s2, caps2. eauto using suffix_of_trans.
  - destruct (run r1 s caps k) as [x|] eqn:Hleft.
    + injection Hrun as ->. eauto.
    + eauto.
  - destruct (run r1 s caps k) as [x|] eqn:Hleft.
    + injection Hrun as ->. eauto.
    + exists s, caps. auto with re.
  - destruct (IH1 _ _ _ _ Hrun) as (s1 & caps1 & Hk1 & Hs1). eauto.
  - destruct (plus_run_reaches _ _ _ _ Hrun) as (rest & Hk & Hsuf). eauto.
  - destruct (repeat_run n c s) as [s'|] eqn:Hrep; [|discriminate].
    destruct (repeat_run_spec _ _ _ _ Hrep) as (taken & -> & _ & _).
    exists s', caps. split; [assumption | now exists taken].
Qed.

Lemma run_seq_reaches (r1 r2 : regex) s caps k res :
  run (RSeq r1 r2) s caps k = Some res ->
  exists rest caps', run r2 rest caps' k = Some res /\ suffix_of rest s.
Proof. cbn [run]. apply run_reaches. Qed.

(** A final group (c{n}) captures the n characters it takes. *)
Lemma run_final_group (g n : nat) (c : cclass) s caps caps' rest :
  run (RGroup g (RRepeat n c)) s caps (fun s' caps0 => Some (caps0, s'))
    = Some (caps', rest) ->
  exists token,
    caps' = (g, token) :: caps /\ s = token +:+ rest /\
    String.length token = n /\
    forallb (class_mem c) (chars token) = true.
Proof.
  cbn [run]. destruct (repeat_run n c s) as [s'|] eqn:Hrep; [|discriminate].
  intros [= <- <-].
  destruct (repeat_run_spec _ _ _ _ Hrep) as (token & -> & Hlen & Hall).
  exists token. now rewrite consumed_append.
Qed.

(** The end of a match of YOUTUBE_REGEX is group 6: eleven characters
    outside &=%? taken from the text, in front of the unmatched rest. *)
Lemma youtube_match_token (url : string) (caps : captures) (rest : string) :
  re_match YOUTUBE_REGEX url = Some (caps, rest) ->
  exists token before,
    group 6 caps = Some token /\
    url = before +:+ token +:+ rest /\
    String.length token = 11%nat /\
    forallb (class_mem (CNotIn ["&"; "="; "%"; "?"]%char)) (chars token) = true.
Proof.
  unfold re_match, YOUTUBE_REGEX. intros Hrun.
  do 7 (let s := fresh "s" in let c := fresh "c" in let Hs := fresh "Hs" in
        apply run_seq_reaches in Hrun; destruct Hrun as (s & c & Hrun & Hs)).
  apply run_final_group in Hrun.
  destruct Hrun as (token & -> & -> & Hlen & Hall).
  assert (Hsuf : suffix_of (token +:+ rest) url)
    by eauto 12 using suffix_of_trans.
  destruct Hsuf as [before ->].
  exists token, before. cbn [group Nat.eqb]. auto.
Qed.

(** C5. A URL that matches YOUTUBE_REGEX yields exactly the text of group
    6, eleven characters long, free of & = % ? and taken from the URL in
    front of the unmatched rest; any other URL raises
    ValueError("Invalid YouTube URL"). *)
Theorem extract_youtube_video_id_group6 (url : string) :
  match re_match YOUTUBE_REGEX url with
  | Some (caps, rest) =>
      exists token before,
        group 6 caps = Some token /\
        extract_youtube_video_id url = Ok (Some token) /\
        String.length token = 11%nat /\
        url = before +:+ token +:+ rest /\
        forallb (class_mem (CNotIn ["&"; "="; "%"; "?"]%char)) (chars token)
          = true
  | None =>
      extract_youtube_video_id url = Raise (ValueError "Invalid YouTube URL")
  end.
Proof.
  unfold extract_youtube_video_id.
  destruct (re_match YOUTUBE_REGEX url) as [[caps rest]|] eqn:Hmatch;
    [|reflexivity].
  destruct (youtube_match_token _ _ _ Hmatch)
    as (token & before & Hgroup & Hurl & Hlen & Hall).
  exists token, before. rewrite Hgroup. auto.
Qed.

Example extract_short_link :
  extract_youtube_video_id "https://youtu.be/dQw4w9WgXcQ"
  = Ok (Some "dQw4w9WgXcQ").
Proof. vm_compute. reflexivity. Qed.

Example extract_watch_link :
  extract_youtube_video_id "https://www.youtube.com/watch?v=dQw4w9WgXcQ&t=1"
  = Ok (Some "dQw4w9WgXcQ").
Proof. vm_compute. reflexivity. Qed.

Example extract_other_site :
  extract_youtube_video_id "https://vimeo.com/12345"
  = Raise (ValueError "Invalid YouTube URL").
Proof. vm_compute. reflexivity. Qed.

(* --------------------------------------------------------------------- *)
(* Running coroutines                                                     *)
(* --------------------------------------------------------------------- *)

Lemma tell_tell w a b : tell (tell w a) b = tell w (a ++ b).
Proof. unfold tell. cbn. now rewrite <- app_assoc. Qed.

Lemma bind_run {A B} (m : M A) (f : A -> M B) (w : world) :
  (m ≫= f) w =
  match m w with
  | (Ok a, w') => f a w'
  | (Raise e, w') => (Raise e, w')
  end.
Proof. reflexivity. Qed.

Lemma ret_run {A} (a : A) (w : world) : (mret a : M A) w = (Ok a, w).
Proof. reflexivity. Qed.

Lemma emit_run (e : event) (w : world) : emit e w = (Ok tt, tell w [e]).
Proof. reflexivity. Qed.

Lemma log_run lvl msg w : log lvl msg w = (Ok tt, tell w [EvLog lvl msg]).
Proof. reflexivity. Qed.

Lemma sleep_run secs w : sleep secs w = (Ok tt, tell w [EvSleep secs]).
Proof. reflexivity. Qed.

Lemma send_message_run chat text w :
  send_message chat text w = (Ok tt, tell w [EvSendMessage chat text]).
Proof. reflexivity. Qed.

Lemma lift_run {A} (r : result A) (w : world) : lift r w = (r, w).
Proof. reflexivity. Qed.

(** Rewrite a run of sequenced primitive steps into its outcome. *)
Ltac run_steps :=
  repeat first
    [ rewrite bind_run
    | rewrite ret_run
    | rewrite log_run
    | rewrite sleep_run
    | rewrite send_message_run
    | rewrite lift_run
    | rewrite tell_tell ];
  cbn [app].

Section Facts.

Context {E : Env}.

(* --------------------------------------------------------------------- *)
(* format_duration                                                        *)
(* --------------------------------------------------------------------- *)

(** C2, as the code has it. 3661 seconds give "1h 1m 1s"; a duration that
    is absent or falsy gives "No duration available", and the int 0 is
    falsy, so 0 seconds give "No duration available" too. *)
Theorem format_duration_cases (d : json F) :
  format_duration (JInt 3661) = Ok "1h 1m 1s" /\
  format_duration JNull = Ok "No duration available" /\
  format_duration (JInt 0) = Ok "No duration available" /\
  (truthy d = false -> format_duration d = Ok "No duration available").
Proof.
  repeat split; try reflexivity.
  intros Hfalsy. unfold format_duration. now rewrite Hfalsy.
Qed.

(* --------------------------------------------------------------------- *)
(* fetch_youtube_details                                                  *)
(* --------------------------------------------------------------------- *)

Lemma communicate_run (command : list string) (w : world) p fs' :
  tool (nspawn w) command (files w) = (p, fs') ->
  communicate command w =
    (Ok p, mk_world fs' (S (nspawn w)) (trace w ++ [EvSpawn command])).
Proof. intros Htool. unfold communicate. now rewrite Htool. Qed.

(** An attempt whose process leaves error output and a non-zero code is
    logged, waited for when it is not the last, and followed by the next
    iteration of the loop. *)
Lemma fetch_attempts_retry url max_retries base_delay remaining attempt w
    p fs' msg :
  tool (nspawn w) (details_command url) (files w) = (p, fs') ->
  stderr p <> [] -> returncode p <> 0 ->
  bytes_decode (stderr p) = Some msg ->
  fetch_attempts url max_retries base_delay (S remaining) attempt w =
  fetch_attempts url max_retries base_delay remaining (attempt + 1)
    (mk_world fs' (S (nspawn w))
       (trace w ++ retry_events url max_retries base_delay attempt msg)).
Proof.
  intros Htool Herr Hcode Hdec. cbn [fetch_attempts].
  rewrite bind_run, (communicate_run _ _ _ _ Htool).
  rewrite bool_decide_eq_false_2 by assumption.
  apply Z.eqb_neq in Hcode. rewrite Hcode. cbn [negb andb].
  unfold decode. rewrite Hdec. unfold retry_events.
  destruct (attempt <? max_retries - 1); run_steps;
    unfold tell; cbn [files nspawn trace]; now rewrite <- app_assoc.
Qed.

(** An attempt whose process leaves no error output, or exits with code
    0, goes on to parse what the process printed. *)
Lemma fetch_attempts_parse url max_retries base_delay remaining attempt w
    p fs' :
  tool (nspawn w) (details_command url) (files w) = (p, fs') ->
  stderr p = [] \/ returncode p = 0 ->
  fetch_attempts url max_retries base_delay (S remaining) attempt w =
  parse_details url p
    (mk_world fs' (S (nspawn w)) (trace w ++ [EvSpawn (details_command url)])).
Proof.
  intros Htool Hgood. cbn [fetch_attempts].
  rewrite bind_run, (communicate_run _ _ _ _ Htool).
  destruct Hgood as [Hquiet | Hzero].
  - rewrite bool_decide_eq_true_2 by assumption. reflexivity.
  - rewrite Hzero. cbn. now rewrite andb_false_r.
Qed.

Lemma parse_details_bad_json url p w text e :
  bytes_decode (stdout p) = Some text ->
  json_loads text = inl e ->
  parse_details url p w =
    (Ok None,
     tell w [EvLog ERROR ("Error decoding JSON from yt-dlp output: " +:+ e)]).
Proof.
  intros Hdec Hjson. unfold parse_details, decode.
  rewrite Hdec. run_steps. rewrite Hjson. run_steps. reflexivity.
Qed.

(** Output that does not decode leaves the function as the exception of
    decode(): the handler of JSONDecodeError does not catch it. *)
Lemma parse_details_undecodable url p w :
  bytes_decode (stdout p) = None ->
  parse_details url p w = (Raise UnicodeDecodeError, w).
Proof.
  intros Hdec. unfold parse_details, decode. rewrite Hdec. reflexivity.
Qed.

Lemma parse_details_object url p w text items duration_formatted :
  bytes_decode (stdout p) = Some text ->
  json_loads text = inr (JDict items) ->
  format_duration (dict_get items "duration" JNull) = Ok duration_formatted ->
  parse_details url p w =
    (Ok (Some (filtered_details items duration_formatted)),
     tell w [EvLog INFO ("Fetched YouTube details successfully for URL: "
                         +:+ url)]).
Proof.
  intros Hdec Hjson Hdur. unfold parse_details, decode.
  rewrite Hdec. run_steps. rewrite Hjson.
  unfold py_get, USE_SNIPPET_FOR_DESCRIPTION. run_steps.
  rewrite Hdur. run_steps. reflexivity.
Qed.

Lemma sleeps_app (a b : list event) : sleeps (a ++ b) = sleeps a ++ sleeps b.
Proof.
  induction a as [|e a IH]; [reflexivity|].
  destruct e; cbn [app sleeps]; now rewrite IH.
Qed.

(** C1, as the code has it. An attempt whose process exits with a
    non-zero code and leaves error output that decodes is logged as a
    warning; when it is not the last one (attempt < max_retries - 1) the
    fetcher sleeps base_delay * 2^attempt seconds and runs a further
    attempt, and when it is the last one the fetch ends without details.
    [remaining] and [attempt] are tied as range(max_retries) ties them. *)
Theorem fetch_failed_attempt_backoff url max_retries base_delay remaining
    attempt w p fs' msg :
  tool (nspawn w) (details_command url) (files w) = (p, fs') ->
  returncode p <> 0 -> stderr p <> [] ->
  bytes_decode (stderr p) = Some msg ->
  Z.of_nat (S remaining) = max_retries - attempt ->
  let logged :=
    mk_world fs' (S (nspawn w))
      (trace w ++
       [EvSpawn (details_command url);
        EvLog WARNING ("Attempt " +:+ str_of_Z (attempt + 1) +:+ " failed: "
                       +:+ msg)]) in
  (attempt < max_retries - 1 ->
   remaining <> 0%nat /\
   fetch_attempts url max_retries base_delay (S remaining) attempt w =
   fetch_attempts url max_retries base_delay remaining (attempt + 1)
     (tell logged
        [EvLog INFO ("Retrying after " +:+ str_of_Z (base_delay * 2 ^ attempt)
                     +:+ " seconds...");
         EvSleep (base_delay * 2 ^ attempt)])) /\
  (~ attempt < max_retries - 1 ->
   fetch_attempts url max_retries base_delay (S remaining) attempt w =
   (Ok None, tell logged [EvLog ERROR "All retry attempts failed."])).
Proof.
  intros Htool Hcode Herr Hdec Hrange logged.
  rewrite (fetch_attempts_retry _ _ _ _ _ _ _ _ _ Htool Herr Hcode Hdec).
  unfold retry_events, logged, tell. cbn [files nspawn trace].
  split; intros Hlast.
  - split; [lia|]. apply Z.ltb_lt in Hlast. rewrite Hlast.
    now rewrite <- app_assoc.
  - apply Z.ltb_nlt in Hlast. rewrite Hlast.
    assert (remaining = 0%nat) as -> by lia.
    cbn [fetch_attempts]. rewrite ret_run. now rewrite <- app_assoc.
Qed.

(** When the process reaches the parsing branch and what it printed is
    text that is not JSON, the fetch ends at once without details: one
    process started, one error logged, no sleep and no further attempt,
    however many attempts remain. *)
Theorem fetch_bad_json_fails_at_once url max_retries base_delay remaining
    attempt w p fs' text e :
  tool (nspawn w) (details_command url) (files w) = (p, fs') ->
  stderr p = [] \/ returncode p = 0 ->
  bytes_decode (stdout p) = Some text ->
  json_loads text = inl e ->
  let failed :=
    (Ok None,
     mk_world fs' (S (nspawn w))
       (trace w ++
        [EvSpawn (details_command url);
         EvLog ERROR ("Error decoding JSON from yt-dlp output: " +:+ e)])) in
  fetch_attempts url max_retries base_delay (S remaining) attempt w = failed /\
  (0 < max_retries ->
   fetch_youtube_details url max_retries base_delay w = failed /\
   sleeps (trace (snd failed)) = sleeps (trace w)).
Proof.
  intros Htool Hgood Hdec Hjson failed.
  assert (Hstep : forall n a,
             fetch_attempts url max_retries base_delay (S n) a w = failed).
  { intros n a. rewrite (fetch_attempts_parse _ _ _ _ _ _ _ _ Htool Hgood).
    rewrite (parse_details_bad_json _ _ _ _ _ Hdec Hjson).
    unfold failed, tell. cbn [files nspawn trace]. now rewrite <- app_assoc. }
  split; [apply Hstep|]. intros Hpos. split.
  - unfold fetch_youtube_details.
    destruct (Z.to_nat max_retries) as [|n] eqn:Hn; [lia | apply Hstep].
  - unfold failed. cbn [snd trace]. rewrite sleeps_app. cbn [sleeps].
    apply app_nil_r.
Qed.


(* --------------------------------------------------------------------- *)
(* transcribe_audio                                                       *)
(* --------------------------------------------------------------------- *)

Lemma path_exists_run path w :
  path_exists path w = (Ok (bool_decide (is_Some (files w !! path))), w).
Proof. reflexivity. Qed.

(** The verification loop keeps the formats whose file is present, only
    logs, and always returns. *)
Lemma verify_files_run (todo : list (string * string)) :
  forall created w,
  exists logs,
    verify_files todo created w =
      (Ok (fold_left
             (fun acc item =>
                if present (files w) (snd item)
                then dict_setitem acc (fst item) (snd item) else acc)
             todo created),
       tell w logs) /\
    Forall is_log logs.
Proof.
  induction todo as [|[fmt path] todo IH]; intros created w.
  - exists []. split; [|constructor].
    cbn. unfold tell. rewrite app_nil_r. now destruct w.
  - cbn [verify_files fold_left fst snd].
    rewrite bind_run, path_exists_run.
    assert (Hnext : forall c ev,
      exists logs,
        verify_files todo c (tell w [ev]) =
          (Ok (fold_left
                 (fun acc item =>
                    if present (files w) (snd item)
                    then dict_setitem acc (fst item) (snd item) else acc)
                 todo c),
           tell w (ev :: logs)) /\
        Forall is_log logs).
    { intros c ev. destruct (IH c (tell w [ev])) as (logs & Hrun & Hlogs).
      exists logs. rewrite Hrun, tell_tell. auto. }
    destruct (files w !! path) as [size|] eqn:Hfile.
    + assert (Hp : present (files w) path = (0 <? size)%N)
        by (unfold present; now rewrite Hfile).
      rewrite Hp, bool_decide_eq_true_2 by eauto.
      rewrite bind_run, bind_run. unfold path_getsize. rewrite Hfile.
      rewrite ret_run.
      destruct (0 <? size)%N; rewrite bind_run, log_run;
        match goal with
        | |- context [verify_files todo ?c (tell w [?ev])] =>
            destruct (Hnext c ev) as (logs & -> & Hlogs)
        end;
        eexists; (split; [reflexivity|]);
        (constructor; [exact I | assumption]).
    + assert (Hp : present (files w) path = false)
        by (unfold present; now rewrite Hfile).
      rewrite Hp, bool_decide_eq_false_2 by (intros [? ?]; discriminate).
      rewrite bind_run, ret_run, bind_run, log_run.
      match goal with
      | |- context [verify_files todo ?c (tell w [?ev])] =>
          destruct (Hnext c ev) as (logs & -> & Hlogs)
      end.
      eexists. split; [reflexivity|].
      constructor; [exact I | assumption].
Qed.

(** On the three distinct formats the loop is a filter. *)
Lemma verified_transcripts (fs : gmap string N) (output_dir audio_path : string) :
  fold_left
    (fun acc item =>
       if present fs (snd item)
       then dict_setitem acc (fst item) (snd item) else acc)
    (transcript_files output_dir audio_path) []
  = List.filter (fun item => present fs (snd item))
      (transcript_files output_dir audio_path).
Proof.
  unfold transcript_files. cbn [fold_left List.filter fst snd].
  repeat match goal with
  | |- context [present fs ?path] => destruct (present fs path)
  end; reflexivity.
Qed.

(** transcribe_audio returns whenever the exit code is 0 or the error
    output decodes; what it returns is read off the files that exist
    when the process has ended. *)
Lemma transcribe_audio_run audio_path output_dir youtube_url w p fs' :
  tool (nspawn w) ["whisper"; audio_path; "--output_dir"; output_dir]
       (files w) = (p, fs') ->
  returncode p = 0 \/ is_Some (bytes_decode (stderr p)) ->
  exists evs,
    transcribe_audio audio_path output_dir youtube_url w =
      (Ok (List.filter (fun item => present fs' (snd item))
             (transcript_files output_dir audio_path)),
       mk_world fs' (S (nspawn w)) (trace w ++ evs)).
Proof.
  intros Htool Hfine. unfold transcribe_audio.
  rewrite bind_run, log_run, bind_run.
  rewrite (communicate_run _ (tell w _) _ _ Htool). rewrite bind_run.
  assert (Hlogged : exists logs,
    (if negb (returncode p =? 0)
     then
       log ERROR ("Whisper process failed with return code "
                  +:+ str_of_Z (returncode p)) ;;
       msg ← decode (stderr p); log ERROR ("Whisper STDERR: " +:+ msg)
     else log INFO ("Whisper transcription completed for: " +:+ audio_path))
      (mk_world fs' (S (nspawn (tell w [EvLog INFO ("Starting transcription for: " +:+ audio_path)])))
         (trace (tell w [EvLog INFO ("Starting transcription for: " +:+ audio_path)])
          ++ [EvSpawn ["whisper"; audio_path; "--output_dir"; output_dir]]))
    = (Ok tt, mk_world fs' (S (nspawn w)) (trace w ++ logs))).
  { destruct (returncode p =? 0) eqn:Hcode; cbn [negb].
    - rewrite log_run. unfold tell. cbn [files nspawn trace].
      rewrite <- !app_assoc. eexists. reflexivity.
    - destruct Hfine as [Hzero | [msg Hdec]];
        [apply Z.eqb_neq in Hcode; contradiction|].
      unfold decode. rewrite Hdec. run_steps.
      unfold tell. cbn [files nspawn trace].
      rewrite <- !app_assoc. eexists. reflexivity. }
  destruct Hlogged as (logs & ->).
  destruct (verify_files_run (transcript_files output_dir audio_path) []
              (mk_world fs' (S (nspawn w)) (trace w ++ logs)))
    as (more & Hverify & _).
  unfold transcript_files in Hverify at 1. cbv zeta in Hverify.
  rewrite Hverify. cbn [files]. rewrite verified_transcripts.
  unfold tell. cbn [files nspawn trace]. rewrite <- app_assoc.
  eexists. reflexivity.
Qed.

Lemma present_true (fs : gmap string N) (path : string) :
  present fs path = true <->
  exists size, fs !! path = Some size /\ (0 < size)%N.
Proof.
  unfold present. destruct (fs !! path) as [size|].
  - rewrite N.ltb_lt. split; [eauto | now intros (? & [= <-] & ?)].
  - split; [discriminate | now intros (? & [=] & _)].
Qed.

(** A non-zero exit code whose error output does not decode is the one
    way transcribe_audio raises. *)
Lemma transcribe_audio_raises audio_path output_dir youtube_url w p fs' :
  tool (nspawn w) ["whisper"; audio_path; "--output_dir"; output_dir]
       (files w) = (p, fs') ->
  returncode p <> 0 -> bytes_decode (stderr p) = None ->
  exists w',
    transcribe_audio audio_path output_dir youtube_url w =
      (Raise UnicodeDecodeError, w').
Proof.
  intros Htool Hcode Hdec. unfold transcribe_audio.
  rewrite bind_run, log_run, bind_run.
  rewrite (communicate_run _ (tell w _) _ _ Htool). rewrite bind_run.
  apply Z.eqb_neq in Hcode. rewrite Hcode. cbn [negb].
  unfold decode. rewrite Hdec. run_steps. unfold raise. eexists. reflexivity.
Qed.

(** What a returned mapping says about the files left by the process. *)
Lemma transcribe_audio_returned audio_path output_dir youtube_url w created w' :
  transcribe_audio audio_path output_dir youtube_url w = (Ok created, w') ->
  created = List.filter (fun item => present (files w') (snd item))
              (transcript_files output_dir audio_path) /\
  files w' = snd (tool (nspawn w)
                    ["whisper"; audio_path; "--output_dir"; output_dir]
                    (files w)).
Proof.
  intros Hrun.
  destruct (tool (nspawn w) ["whisper"; audio_path; "--output_dir"; output_dir]
              (files w)) as [p fs'] eqn:Htool.
  destruct (Z.eq_dec (returncode p) 0) as [Hzero | Hcode].
  - destruct (transcribe_audio_run audio_path output_dir youtube_url _ _ _
                Htool (or_introl Hzero)) as (evs & Hspec).
    rewrite Hspec in Hrun. injection Hrun as <- <-. auto.
  - destruct (bytes_decode (stderr p)) as [msg|] eqn:Hdec.
    + destruct (transcribe_audio_run audio_path output_dir youtube_url _ _ _
                  Htool (or_intror (ex_intro _ msg Hdec))) as (evs & Hspec).
      rewrite Hspec in Hrun. injection Hrun as <- <-. auto.
    + destruct (transcribe_audio_raises audio_path output_dir youtube_url _ _ _
                  Htool Hcode Hdec) as (w'' & Hspec).
      rewrite Hspec in Hrun. discriminate.
Qed.

(** Whatever the exit code of the process, its error output decoding
    when the code is not 0, transcribe_audio returns a mapping whose
    tags are among txt, srt, vtt and which has a tag exactly when the file
    <output_dir>/<stem>.<tag> exists with a size above 0 once the process
    has ended; with txt and srt there and no vtt the tags are txt, srt. *)
Theorem transcribe_audio_by_files audio_path output_dir youtube_url w p fs' :
  tool (nspawn w) ["whisper"; audio_path; "--output_dir"; output_dir]
       (files w) = (p, fs') ->
  returncode p = 0 \/ is_Some (bytes_decode (stderr p)) ->
  let stem := splitext_root (basename audio_path) in
  exists created w',
    transcribe_audio audio_path output_dir youtube_url w = (Ok created, w') /\
    files w' = fs' /\
    (forall fmt, In fmt ["txt"; "srt"; "vtt"] ->
       (In (fmt, output_dir +:+ "/" +:+ stem +:+ "." +:+ fmt) created <->
        exists size,
          fs' !! (output_dir +:+ "/" +:+ stem +:+ "." +:+ fmt) = Some size /\
          (0 < size)%N)) /\
    (forall fmt path, In (fmt, path) created ->
       In fmt ["txt"; "srt"; "vtt"] /\
       path = output_dir +:+ "/" +:+ stem +:+ "." +:+ fmt) /\
    (present fs' (output_dir +:+ "/" +:+ stem +:+ ".txt") = true ->
     present fs' (output_dir +:+ "/" +:+ stem +:+ ".srt") = true ->
     present fs' (output_dir +:+ "/" +:+ stem +:+ ".vtt") = false ->
     map fst created = ["txt"; "srt"]).
Proof.
  intros Htool Hfine stem.
  destruct (transcribe_audio_run audio_path output_dir youtube_url _ _ _
              Htool Hfine) as (evs & Hrun).
  eexists _, _. split; [exact Hrun|]. split; [reflexivity|].
  unfold transcript_files. fold stem.
  change (stem +:+ ".txt") with (stem +:+ "." +:+ "txt").
  change (stem +:+ ".srt") with (stem +:+ "." +:+ "srt").
  change (stem +:+ ".vtt") with (stem +:+ "." +:+ "vtt").
  cbn [List.filter snd].
  repeat split.
  - intros Hin. apply present_true.
    destruct H as [<- | [<- | [<- | []]]];
      repeat match goal with
      | H : In _ (if ?b then _ else _) |- _ => destruct b eqn:?
      | H : In _ (_ :: _) |- _ => destruct H as [[= ?] | H]
      | H : In _ [] |- _ => destruct H
      end; congruence.
  - intros Hsize. apply present_true in Hsize.
    destruct H as [<- | [<- | [<- | []]]]; rewrite ?Hsize;
      repeat match goal with
      | |- context [if ?b then _ else _] => destruct b
      end; cbn [In]; auto.
  - repeat match goal with
      | H : In _ (if ?b then _ else _) |- _ => destruct b
      | H : In _ (_ :: _) |- _ => destruct H as [[= <- <-] | H]
      | H : In _ [] |- _ => destruct H
      end; cbn [In]; auto.
  - repeat match goal with
      | H : In _ (if ?b then _ else _) |- _ => destruct b
      | H : In _ (_ :: _) |- _ => destruct H as [[= <- <-] | H]
      | H : In _ [] |- _ => destruct H
      end; reflexivity.
  - intros -> -> ->. reflexivity.
Qed.

(* --------------------------------------------------------------------- *)
(* process_url_message                                                    *)
(* --------------------------------------------------------------------- *)

Lemma send_documents_run chat (items : list (string * string)) :
  forall w,
    (forall item, In item items -> is_Some (files w !! snd item)) ->
    for_each (fun item => send_document chat (snd item)) items w =
      (Ok tt, tell w (map (fun item => EvSendDocument chat (snd item)) items)).
Proof.
  induction items as [|item items IH]; intros w Hthere.
  - cbn. unfold tell. rewrite app_nil_r. now destruct w.
  - cbn [for_each map]. rewrite bind_run. unfold send_document at 1.
    destruct (Hthere item (or_introl eq_refl)) as [size ->].
    rewrite emit_run, IH, tell_tell; [reflexivity|].
    intros other Hin. apply Hthere. now right.
Qed.

Lemma os_remove_run path w :
  os_remove path w =
    match files w !! path with
    | Some _ =>
        (Ok tt, mk_world (delete path (files w)) (nspawn w)
                  (trace w ++ [EvRemove path]))
    | None => (Raise (FileNotFoundError path), w)
    end.
Proof. reflexivity. Qed.

Lemma os_remove_files path w :
  files (snd (os_remove path w)) = delete path (files w).
Proof.
  rewrite os_remove_run. destruct (files w !! path) eqn:Hfile; cbn [snd files].
  - reflexivity.
  - symmetry. now apply delete_id.
Qed.

(** The end of an iteration removes the audio file and no other file;
    with a non-empty set it sends every file of the set, in the order of
    the set, right after the announcement. *)
Lemma deliver_and_clean_up_run chat audio_path created w :
  (forall item, In item created -> is_Some (files w !! snd item)) ->
  let r := deliver_and_clean_up chat audio_path created w in
  files (snd r) = delete audio_path (files w) /\
  (is_Some (files w !! audio_path) ->
   r = (Ok tt, mk_world (delete audio_path (files w)) (nspawn w)
                 (trace w ++ closing_events chat audio_path created))) /\
  (created <> [] ->
   exists rest,
     trace (snd r) =
       trace w
       ++ [EvSendMessage chat "Sending transcription files..."]
       ++ map (fun item => EvSendDocument chat (snd item)) created
       ++ rest /\
     Forall (fun e => forall c p, e <> EvSendDocument c p) rest).
Proof.
  intros Hthere r. subst r. unfold deliver_and_clean_up, closing_events.
  destruct created as [|item created].
  - rewrite bind_run, send_message_run. split; [|split].
    + now rewrite os_remove_files.
    + intros [size Hfile]. rewrite os_remove_run. cbn [tell files nspawn trace].
      rewrite Hfile. now rewrite <- app_assoc.
    + intros Hne. now contradiction Hne.
  - set (items := item :: created) in *.
    rewrite bind_run, send_message_run, bind_run.
    rewrite send_documents_run by exact Hthere.
    rewrite tell_tell, bind_run, os_remove_run.
    cbn [tell files nspawn trace].
    destruct (files w !! audio_path) as [size|] eqn:Hfile.
    + rewrite send_message_run. unfold tell. cbn [files nspawn trace snd].
      split; [reflexivity|]. split.
      * intros _. now rewrite <- !app_assoc.
      * intros _. eexists. rewrite <- !app_assoc. split; [reflexivity|].
        repeat constructor; discriminate.
    + cbn [snd files trace]. split; [symmetry; now apply delete_id|].
      split; [intros [? ?]; discriminate|].
      intros _. exists []. rewrite app_nil_r. split; [reflexivity | constructor].
Qed.

Lemma process_url_transcribed chat url w audio_path created w3 :
  transcribed chat url w audio_path created w3 ->
  process_url chat url w = deliver_and_clean_up chat audio_path created w3.
Proof.
  intros (caps & rest & d & w1 & w2 & Hmatch & -> & Hfetch & Hdown & Hfile
          & Htrans).
  unfold process_url, extract_youtube_video_id.
  rewrite Hmatch. rewrite bool_decide_eq_true_2 by eauto. cbn [negb].
  run_steps. rewrite Hfetch. run_steps. rewrite Hdown.
  rewrite bind_run, path_exists_run.
  rewrite bool_decide_eq_true_2 by exact Hfile. cbn [negb].
  run_steps. rewrite Htrans. reflexivity.
Qed.

(** No transcript path is the path of an mp3 file. *)
Lemma transcript_not_mp3 output_dir audio_path fmt path stem :
  In (fmt, path) (transcript_files output_dir audio_path) ->
  path <> stem +:+ ".mp3".
Proof.
  unfold transcript_files. cbn [In].
  intros [[= <- <-] | [[= <- <-] | [[= <- <-] | []]]] Heq;
    match type of Heq with
    | ?dir +:+ String "/" (?base +:+ ?ext) = _ =>
        assert (Hsplit : (dir +:+ "/" +:+ base) +:+ ext = stem +:+ ".mp3")
          by (rewrite !append_assoc; exact Heq)
    end;
    apply append_inj_suffix in Hsplit; try reflexivity;
    destruct Hsplit; discriminate.
Qed.

(** Files that transcribe_audio reports exist, and none is the audio. *)
Lemma transcribed_files chat url w audio_path created w3 :
  transcribed chat url w audio_path created w3 ->
  created = List.filter (fun item => present (files w3) (snd item))
              (transcript_files "transcriptions" audio_path) /\
  forall item, In item created ->
    is_Some (files w3 !! snd item) /\ snd item <> audio_path.
Proof.
  intros (caps & rest & d & w1 & w2 & Hmatch & -> & Hfetch & Hdown & Hfile
          & Htrans).
  destruct (transcribe_audio_returned _ _ _ _ _ _ Htrans) as [Hcreated _].
  split; [exact Hcreated|].
  intros [fmt path] Hin. rewrite Hcreated in Hin.
  apply filter_In in Hin. destruct Hin as [Hin Hpresent]. cbn [snd] in *.
  split.
  - apply present_true in Hpresent. destruct Hpresent as (size & -> & _). eauto.
  - eapply transcript_not_mp3, Hin.
Qed.

(** Once the download has left the audio file and transcribe_audio
    has returned, the iteration ends with the audio file gone and with no
    other file touched, so every transcript file of the returned set is
    still there; when the audio file is still there after the
    transcription, the removal is the step before the end on the failure
    path (empty set) and the step before the closing message on the
    delivery path. *)
Theorem audio_removed_transcripts_kept chat url w audio_path created w3 :
  transcribed chat url w audio_path created w3 ->
  let r := process_url chat url w in
  files (snd r) = delete audio_path (files w3) /\
  files (snd r) !! audio_path = None /\
  (forall fmt path, In (fmt, path) created ->
     files (snd r) !! path = files w3 !! path /\
     present (files (snd r)) path = true) /\
  (is_Some (files w3 !! audio_path) ->
   r = (Ok tt, mk_world (delete audio_path (files w3)) (nspawn w3)
                 (trace w3 ++ closing_events chat audio_path created))).
Proof.
  intros Hreach r. subst r.
  rewrite (process_url_transcribed _ _ _ _ _ _ Hreach).
  destruct (transcribed_files _ _ _ _ _ _ Hreach) as [Hcreated Hfiles].
  destruct (deliver_and_clean_up_run chat audio_path created w3)
    as (Hleft & Hrun & _).
  { intros item Hin. now apply Hfiles. }
  split; [exact Hleft|]. split; [|split].
  - rewrite Hleft. apply lookup_delete_eq.
  - intros fmt path Hin.
    destruct (Hfiles _ Hin) as [_ Hother]. cbn [snd] in Hother.
    assert (Hkept : files (snd (deliver_and_clean_up chat audio_path created w3))
                      !! path = files w3 !! path)
      by (rewrite Hleft; now apply lookup_delete_ne).
    split; [exact Hkept|].
    unfold present. rewrite Hkept.
    rewrite Hcreated in Hin. apply filter_In in Hin. now destruct Hin.
  - exact Hrun.
Qed.

(** C8. A URL that does not match YOUTUBE_REGEX costs one message,
    "Skipping non-YouTube URL.", and nothing else: no process is started,
    no file changes, and the loop goes on with the next URL. The message
    "https://vimeo.com/12345" is such a run. *)
Theorem non_youtube_url_skipped chat url urls w :
  re_match YOUTUBE_REGEX url = None ->
  let skipped := tell w [EvSendMessage chat "Skipping non-YouTube URL."] in
  process_url chat url w = (Ok tt, skipped) /\
  files skipped = files w /\ nspawn skipped = nspawn w /\
  for_each (process_url chat) (url :: urls) w =
    for_each (process_url chat) urls skipped /\
  process_url_message "https://vimeo.com/12345" chat w = (Ok tt, skipped).
Proof.
  intros Hno skipped.
  assert (Hskip : forall u v, re_match YOUTUBE_REGEX u = None ->
            process_url chat u v =
              (Ok tt, tell v [EvSendMessage chat "Skipping non-YouTube URL."])).
  { intros u v Hu. unfold process_url. rewrite Hu.
    rewrite bool_decide_eq_false_2 by (intros [? ?]; discriminate).
    reflexivity. }
  split; [now apply Hskip|].
  split; [reflexivity|]. split; [reflexivity|]. split.
  - cbn [for_each]. rewrite bind_run, Hskip by assumption. reflexivity.
  - unfold process_url_message.
    replace (findall URL_REGEX "https://vimeo.com/12345")
      with ["https://vimeo.com/12345"] by (vm_compute; reflexivity).
    cbn [for_each]. rewrite bind_run, Hskip by (vm_compute; reflexivity).
    reflexivity.
Qed.

(** C9. With a non-empty returned set, the iteration announces the files
    and then sends every file of the set as a document, one after the
    other in the order of the set, which is the order txt, srt, vtt of
    transcript_files restricted to the files present; no other document
    is sent. *)
Theorem transcripts_delivered_in_order chat url w audio_path created w3 :
  transcribed chat url w audio_path created w3 ->
  created <> [] ->
  created = List.filter (fun item => present (files w3) (snd item))
              (transcript_files "transcriptions" audio_path) /\
  exists rest,
    trace (snd (process_url chat url w)) =
      trace w3
      ++ [EvSendMessage chat "Sending transcription files..."]
      ++ map (fun item => EvSendDocument chat (snd item)) created
      ++ rest /\
    Forall (fun e => forall c p, e <> EvSendDocument c p) rest.
Proof.
  intros Hreach Hsome.
  rewrite (process_url_transcribed _ _ _ _ _ _ Hreach).
  destruct (transcribed_files _ _ _ _ _ _ Hreach) as [Hcreated Hfiles].
  split; [exact Hcreated|].
  destruct (deliver_and_clean_up_run chat audio_path created w3)
    as (_ & _ & Hsent).
  { intros item Hin. now apply Hfiles. }
  exact (Hsent Hsome).
Qed.

(* --------------------------------------------------------------------- *)
(* Which exceptions can leave process_url_message                         *)
(* --------------------------------------------------------------------- *)

Lemma nve_bind {A B} (m : M A) (f : A -> M B) :
  no_value_error m -> (forall a, no_value_error (f a)) ->
  no_value_error (m ≫= f).
Proof.
  intros Hm Hf w. rewrite bind_run. specialize (Hm w).
  destruct (m w) as [[a|e] w']; [apply Hf | exact Hm].
Qed.

Lemma nve_ret {A} (a : A) : no_value_error (mret a : M A).
Proof. intros w. reflexivity. Qed.

Lemma nve_emit e : no_value_error (emit e).
Proof. intros w. reflexivity. Qed.

Lemma nve_log lvl msg : no_value_error (log lvl msg).
Proof. apply nve_emit. Qed.

Lemma nve_sleep secs : no_value_error (sleep secs).
Proof. apply nve_emit. Qed.

Lemma nve_send_message chat text : no_value_error (send_message chat text).
Proof. apply nve_emit. Qed.

Lemma nve_lift {A} (r : result A) :
  is_value_error r = false -> no_value_error (lift r).
Proof. intros Hr w. exact Hr. Qed.

Lemma nve_path_exists path : no_value_error (path_exists path).
Proof. intros w. reflexivity. Qed.

Lemma nve_path_getsize path : no_value_error (path_getsize path).
Proof. intros w. unfold path_getsize. now destruct (files w !! path). Qed.

Lemma nve_os_remove path : no_value_error (os_remove path).
Proof. intros w. unfold os_remove. now destruct (files w !! path). Qed.

Lemma nve_send_document chat path : no_value_error (send_document chat path).
Proof. intros w. unfold send_document. now destruct (files w !! path). Qed.

Lemma nve_communicate command : no_value_error (communicate command).
Proof. intros w. unfold communicate. now destruct (tool _ _ _). Qed.

Lemma nve_decode b : no_value_error (decode b).
Proof. intros w. unfold decode. now destruct (bytes_decode b). Qed.

Lemma nve_for_each {A} (body : A -> M unit) (xs : list A) :
  (forall x, no_value_error (body x)) -> no_value_error (for_each body xs).
Proof.
  intros Hbody. induction xs as [|x xs IH]; cbn [for_each].
  - apply nve_ret.
  - apply nve_bind; auto.
Qed.

Lemma py_get_nve (v : json F) key default :
  is_value_error (py_get v key default) = false.
Proof. now destruct v. Qed.

Lemma py_divmod_nve (v : json F) n :
  match py_divmod v n with
  | Ok _ => True
  | Raise e => e = TypeError
  end.
Proof. destruct v; cbn; try destruct (float_divmod _ _); auto. Qed.

Lemma format_duration_nve (d : json F) :
  is_value_error (format_duration d) = false.
Proof.
  unfold format_duration. destruct (truthy d); [|reflexivity]. cbn [negb].
  unfold mbind, result_bind.
  pose proof (py_divmod_nve d 3600) as H1.
  destruct (py_divmod d 3600) as [[hours remainder]|e]; [|now subst e].
  pose proof (py_divmod_nve remainder 60) as H2.
  destruct (py_divmod remainder 60) as [[minutes seconds]|e]; [|now subst e].
  now destruct (truthy hours).
Qed.

Lemma get_description_snippet_nve (v : json F) n :
  is_value_error (get_description_snippet v n) = false.
Proof. now destruct v. Qed.

Create HintDb nve.
#[local] Hint Resolve nve_ret nve_emit nve_log nve_sleep nve_send_message
  nve_path_exists nve_path_getsize nve_os_remove nve_send_document
  nve_communicate nve_decode py_get_nve format_duration_nve
  get_description_snippet_nve : nve.

(** Take a sequence of steps apart and settle each step. *)
Ltac nve_steps :=
  repeat first
    [ apply nve_bind; [|intros]
    | apply nve_lift
    | solve [auto with nve]
    | match goal with
      | |- no_value_error (if ?b then _ else _) => destruct b
      | |- no_value_error (match ?x with _ => _ end) => destruct x
      end ].

Lemma nve_parse_details url p : no_value_error (parse_details url p).
Proof. unfold parse_details, USE_SNIPPET_FOR_DESCRIPTION. nve_steps. Qed.

Lemma nve_fetch_attempts url max_retries base_delay remaining :
  forall attempt,
    no_value_error
      (fetch_attempts url max_retries base_delay remaining attempt).
Proof.
  induction remaining as [|remaining IH]; intros attempt;
    cbn [fetch_attempts].
  - apply nve_ret.
  - apply nve_bind; [auto with nve|]. intros p.
    destruct (_ && _); [|apply nve_parse_details].
    nve_steps.
Qed.

Lemma nve_verify_files todo :
  forall created, no_value_error (verify_files todo created).
Proof.
  induction todo as [|[fmt path] todo IH]; intros created;
    cbn [verify_files].
  - apply nve_ret.
  - nve_steps.
Qed.

Lemma nve_transcribe_audio audio_path output_dir youtube_url :
  no_value_error (transcribe_audio audio_path output_dir youtube_url).
Proof.
  pose proof nve_verify_files as Hverify.
  unfold transcribe_audio. nve_steps.
Qed.

Lemma nve_download_audio url output_path :
  no_value_error (download_audio url output_path).
Proof. unfold download_audio. nve_steps. Qed.

Lemma nve_deliver_and_clean_up chat audio_path created :
  no_value_error (deliver_and_clean_up chat audio_path created).
Proof.
  unfold deliver_and_clean_up.
  destruct created; nve_steps; apply nve_for_each; auto with nve.
Qed.

Lemma nve_process_url chat url : no_value_error (process_url chat url).
Proof.
  unfold process_url, extract_youtube_video_id.
  destruct (re_match YOUTUBE_REGEX url) as [[caps rest]|].
  - rewrite bool_decide_eq_true_2 by eauto. cbn [negb].
    apply nve_bind; [auto with nve|]. intros _.
    apply nve_bind; [now apply nve_lift|]. intros video_id.
    apply nve_bind; [auto with nve|]. intros _.
    apply nve_bind; [apply nve_fetch_attempts|]. intros [d|];
      [|auto with nve].
    apply nve_bind; [auto with nve|]. intros _.
    apply nve_bind; [apply nve_download_audio|]. intros _.
    apply nve_bind; [auto with nve|]. intros found.
    destruct (negb found); [auto with nve|].
    apply nve_bind; [auto with nve|]. intros _.
    apply nve_bind; [apply nve_transcribe_audio|]. intros created.
    apply nve_deliver_and_clean_up.
  - rewrite bool_decide_eq_false_2 by (intros [? ?]; discriminate).
    cbn [negb]. auto with nve.
Qed.

(** C10. process_url calls extract_youtube_video_id only behind the
    test that the URL matches YOUTUBE_REGEX, and on a URL that matches the
    extractor returns; so whatever the message, the programs and the
    world, process_url_message never ends in a ValueError, the
    "Invalid YouTube URL" of the extractor included. *)
Theorem process_url_message_never_invalid_url message_text chat w :
  is_value_error (fst (process_url_message message_text chat w)) = false /\
  (forall url,
     is_Some (re_match YOUTUBE_REGEX url) ->
     exists token, extract_youtube_video_id url = Ok (Some token)) /\
  (forall url v,
     re_match YOUTUBE_REGEX url = None ->
     process_url chat url v =
       (Ok tt, tell v [EvSendMessage chat "Skipping non-YouTube URL."])).
Proof.
  split; [|split].
  - unfold process_url_message.
    apply (nve_for_each (process_url chat)). apply nve_process_url.
  - intros url [[caps rest] Hmatch].
    destruct (youtube_match_token _ _ _ Hmatch) as (token & _ & Hgroup & _).
    exists token. unfold extract_youtube_video_id. now rewrite Hmatch, Hgroup.
  - intros url v Hno. unfold process_url. rewrite Hno.
    rewrite bool_decide_eq_false_2 by (intros [? ?]; discriminate).
    reflexivity.
Qed.

End Facts.

(** C2 fails as stated: 0 seconds do not give "0m 0s". *)
Lemma format_duration_zero :
  format_duration (E := Scenario.env Scenario.studio) (JInt 0)
    = Ok "No duration available" /\
  format_duration (E := Scenario.env Scenario.studio) (JInt 0) <> Ok "0m 0s".
Proof. split; [reflexivity | discriminate]. Qed.

Lemma format_duration_cases_witness :
  truthy (E := Scenario.env Scenario.studio) (JStr EmptyString) = false /\
  format_duration (E := Scenario.env Scenario.studio) (JStr EmptyString)
    = Ok "No duration available".
Proof.
  split; [reflexivity|].
  apply (format_duration_cases (E := Scenario.env Scenario.studio) (JStr EmptyString)).
  reflexivity.
Defined.

(* --------------------------------------------------------------------- *)
(* Runs of fetch_youtube_details                                          *)
(* --------------------------------------------------------------------- *)

(** C1 fails as stated. The first attempt exits with code 1 while two
    attempts remain, but it leaves no error output: no warning is logged,
    nothing is slept, and the fetch ends after that single attempt. *)
Lemma fetch_silent_failure_not_retried :
  returncode
    (fst (tool (Env := Scenario.env Scenario.silent_failure)
            0 (details_command "u") ∅)) = 1 /\
  fetch_youtube_details (E := Scenario.env Scenario.silent_failure)
    "u" 3 5 Scenario.w0 =
  (Ok None,
   mk_world ∅ 1
     [EvSpawn (details_command "u");
      EvLog ERROR "Error decoding JSON from yt-dlp output: Expecting value: line 1 column 1 (char 0)"]) /\
  warnings (trace (snd (fetch_youtube_details
                          (E := Scenario.env Scenario.silent_failure)
                          "u" 3 5 Scenario.w0))) = [] /\
  sleeps (trace (snd (fetch_youtube_details
                        (E := Scenario.env Scenario.silent_failure)
                        "u" 3 5 Scenario.w0))) = [].
Proof. vm_compute. auto. Qed.

Lemma fetch_failed_attempt_backoff_witness :
  fetch_attempts (E := Scenario.env Scenario.flaky) "u" 3 5 3 0 Scenario.w0 =
  fetch_attempts (E := Scenario.env Scenario.flaky) "u" 3 5 2 1
    (mk_world ∅ 1
       [EvSpawn (details_command "u");
        EvLog WARNING "Attempt 1 failed: ERROR: unable to download";
        EvLog INFO "Retrying after 5 seconds...";
        EvSleep 5]).
Proof.
  pose proof (fetch_failed_attempt_backoff
                (E := Scenario.env Scenario.flaky) "u" 3 5 2 0 Scenario.w0
                (mk_completed 1 [] (Scenario.bytes_of "ERROR: unable to download"))
                ∅ "ERROR: unable to download"
                eq_refl ltac:(discriminate) ltac:(discriminate) eq_refl eq_refl)
    as [Hretry _].
  destruct (Hretry ltac:(lia)) as [_ Hrun]. exact Hrun.
Defined.

Lemma fetch_bad_json_fails_at_once_witness :
  fetch_youtube_details (E := Scenario.env Scenario.garbage)
    "u" 3 5 Scenario.w0 =
  (Ok None,
   mk_world ∅ 1
     [EvSpawn (details_command "u");
      EvLog ERROR "Error decoding JSON from yt-dlp output: Expecting value: line 1 column 1 (char 0)"]).
Proof.
  pose proof (fetch_bad_json_fails_at_once
                (E := Scenario.env Scenario.garbage) "u" 3 5 2 0 Scenario.w0
                (mk_completed 0 (Scenario.bytes_of "not json") [])
                ∅ "not json" "Expecting value: line 1 column 1 (char 0)"
                eq_refl (or_intror eq_refl) eq_refl eq_refl)
    as [_ Htop].
  destruct (Htop ltac:(lia)) as [Hrun _]. exact Hrun.
Defined.


(* --------------------------------------------------------------------- *)
(* Runs of transcribe_audio and of process_url_message                    *)
(* --------------------------------------------------------------------- *)

Lemma transcribe_audio_by_files_witness :
  exists created w',
    transcribe_audio (E := Scenario.env Scenario.studio)
      "dQw4w9WgXcQ.mp3" "transcriptions"
      "https://www.youtube.com/watch?v=dQw4w9WgXcQ" Scenario.w0
    = (Ok created, w') /\
    map fst created = ["txt"; "srt"].
Proof.
  assert (Htool :
    tool (Env := Scenario.env Scenario.studio) (nspawn Scenario.w0)
      ["whisper"; "dQw4w9WgXcQ.mp3"; "--output_dir"; "transcriptions"]
      (files Scenario.w0)
    = (mk_completed 1 [] (Scenario.bytes_of "FutureWarning"),
       <["transcriptions/dQw4w9WgXcQ.srt" := 20%N]>
         (<["transcriptions/dQw4w9WgXcQ.txt" := 10%N]> ∅)))
    by (vm_compute; reflexivity).
  destruct (transcribe_audio_by_files (E := Scenario.env Scenario.studio)
              "dQw4w9WgXcQ.mp3" "transcriptions"
              "https://www.youtube.com/watch?v=dQw4w9WgXcQ" Scenario.w0
              _ _ Htool (or_intror (ex_intro _ "FutureWarning" eq_refl)))
    as (created & w' & Hrun & _ & _ & _ & Hpartial).
  exists created, w'. split; [exact Hrun|].
  apply Hpartial; vm_compute; reflexivity.
Defined.

(** With the programs of [Scenario.studio], the iteration for a short
    link gets as far as a returned transcription with txt and srt. *)
Lemma studio_transcribed :
  exists w3,
    transcribed (E := Scenario.env Scenario.studio) 7
      "https://youtu.be/dQw4w9WgXcQ" Scenario.w0 "dQw4w9WgXcQ.mp3"
      [("txt", "transcriptions/dQw4w9WgXcQ.txt");
       ("srt", "transcriptions/dQw4w9WgXcQ.srt")] w3 /\
    files w3 !! "transcriptions/dQw4w9WgXcQ.txt" = Some 10%N /\
    files w3 !! "dQw4w9WgXcQ.mp3" = Some 4096%N.
Proof.
  eexists. split.
  - unfold transcribed. do 5 eexists. cbv zeta.
    split; [vm_compute; reflexivity|].
    split; [vm_compute; reflexivity|].
    split; [vm_compute; reflexivity|].
    split; [vm_compute; reflexivity|].
    split; [vm_compute; eexists; reflexivity|].
    vm_compute. reflexivity.
  - split; vm_compute; reflexivity.
Qed.

Lemma audio_removed_transcripts_kept_witness :
  files (snd (process_url (E := Scenario.env Scenario.studio) 7
                "https://youtu.be/dQw4w9WgXcQ" Scenario.w0))
    !! "dQw4w9WgXcQ.mp3" = None /\
  files (snd (process_url (E := Scenario.env Scenario.studio) 7
                "https://youtu.be/dQw4w9WgXcQ" Scenario.w0))
    !! "transcriptions/dQw4w9WgXcQ.txt" = Some 10%N.
Proof.
  destruct studio_transcribed as (w3 & Hreach & Htxt & _).
  destruct (audio_removed_transcripts_kept
              (E := Scenario.env Scenario.studio) _ _ _ _ _ _ Hreach)
    as (_ & Hgone & Hkept & _).
  split; [exact Hgone|].
  destruct (Hkept "txt" "transcriptions/dQw4w9WgXcQ.txt"
              ltac:(left; reflexivity)) as [Hsame _].
  rewrite Hsame. exact Htxt.
Defined.

Lemma non_youtube_url_skipped_witness :
  process_url (E := Scenario.env Scenario.studio) 7
    "https://vimeo.com/12345" Scenario.w0
  = (Ok tt, mk_world ∅ 0 [EvSendMessage 7 "Skipping non-YouTube URL."]).
Proof.
  apply (non_youtube_url_skipped (E := Scenario.env Scenario.studio) 7
           "https://vimeo.com/12345" [] Scenario.w0).
  vm_compute. reflexivity.
Defined.

Lemma transcripts_delivered_in_order_witness :
  exists before rest,
    trace (snd (process_url (E := Scenario.env Scenario.studio) 7
                  "https://youtu.be/dQw4w9WgXcQ" Scenario.w0))
    = before
      ++ [EvSendMessage 7 "Sending transcription files...";
          EvSendDocument 7 "transcriptions/dQw4w9WgXcQ.txt";
          EvSendDocument 7 "transcriptions/dQw4w9WgXcQ.srt"]
      ++ rest.
Proof.
  destruct studio_transcribed as (w3 & Hreach & _).
  destruct (transcripts_delivered_in_order
              (E := Scenario.env Scenario.studio) _ _ _ _ _ _ Hreach
              ltac:(discriminate))
    as (_ & rest & Hsent & _).
  exists (trace w3), rest. exact Hsent.
Defined.

Lemma process_url_message_never_invalid_url_witness :
  exists token,
    extract_youtube_video_id "https://youtu.be/dQw4w9WgXcQ" = Ok (Some token).
Proof.
  apply (proj1 (proj2 (process_url_message_never_invalid_url
                         (E := Scenario.env Scenario.studio)
                         EmptyString 7 Scenario.w0))).
  eexists. vm_compute. reflexivity.
Defined.

(** The whole run for a message with one short link. *)
Example studio_end_to_end :
  let r := process_url_message (E := Scenario.env Scenario.studio)
             "check this out https://youtu.be/dQw4w9WgXcQ" 7 Scenario.w0 in
  fst r = Ok tt /\
  map_to_list (files (snd r)) =
    [("transcriptions/dQw4w9WgXcQ.srt", 20%N);
     ("transcriptions/dQw4w9WgXcQ.txt", 10%N)] /\
  List.filter (fun e => match e with EvLog _ _ | EvSpawn _ => false | _ => true end)
    (trace (snd r)) =
    [EvSendMessage 7 "Processing YouTube URL...";
     EvSendMessage 7 "Fetching YouTube video details...";
     EvSendMessage 7 ("Title: Demo" +:+ nl
                      +:+ "Downloading audio for transcription...");
     EvSendMessage 7 "Transcribing audio...";
     EvSendMessage 7 "Sending transcription files...";
     EvSendDocument 7 "transcriptions/dQw4w9WgXcQ.txt";
     EvSendDocument 7 "transcriptions/dQw4w9WgXcQ.srt";
     EvRemove "dQw4w9WgXcQ.mp3";
     EvSendMessage 7 "There ya go, have a nice day! :-)"].
Proof. vm_compute. auto. Qed.

(* --------------------------------------------------------------------- *)
(* Output of a process that is not text                                   *)
(* --------------------------------------------------------------------- *)

(** C3. yt-dlp exits 0 and prints one byte that is not text, so output
    that is not parseable as JSON in the parsing branch: the fetch ends
    at once, after one process and without a sleep, but it does not
    return without details; the UnicodeDecodeError of stdout.decode(),
    which the except clause for JSONDecodeError does not catch, leaves
    fetch_youtube_details, and nothing is logged. *)
Theorem fetch_undecodable_output_raises :
  fetch_youtube_details (E := Scenario.env Cases.binary)
    "https://www.youtube.com/watch?v=dQw4w9WgXcQ" 3 5 Scenario.w0
  = (Raise UnicodeDecodeError,
     mk_world ∅ 1
       [EvSpawn (details_command
                   "https://www.youtube.com/watch?v=dQw4w9WgXcQ")]).
Proof.
  vm_compute. reflexivity.
Qed.

(** C6. whisper writes the txt and srt transcripts and exits 1 with
    error output that is not text: both files are there with a size
    above 0 when the process has ended, yet transcribe_audio returns no
    mapping; the UnicodeDecodeError of stderr.decode() in the log call
    leaves it before the files are looked at. *)
Theorem transcribe_audio_undecodable_stderr_raises :
  let r := transcribe_audio (E := Scenario.env Cases.wreck)
             "dQw4w9WgXcQ.mp3" "transcriptions"
             "https://www.youtube.com/watch?v=dQw4w9WgXcQ" Scenario.w0 in
  fst r = Raise UnicodeDecodeError /\
  present (files (snd r)) "transcriptions/dQw4w9WgXcQ.txt" = true /\
  present (files (snd r)) "transcriptions/dQw4w9WgXcQ.srt" = true /\
  trace (snd r) =
    [EvLog INFO "Starting transcription for: dQw4w9WgXcQ.mp3";
     EvSpawn ["whisper"; "dQw4w9WgXcQ.mp3"; "--output_dir"; "transcriptions"];
     EvLog ERROR "Whisper process failed with return code 1"].
Proof.
  repeat split; vm_compute; reflexivity.
Qed.

(** C7. The download leaves the audio file, whisper writes transcripts
    and exits 1 with error output that is not text: the error of
    transcribe_audio leaves process_url_message, the processing of the
    URL is over and the audio file is still there; the last message to
    the user is the one before the transcription, no document is sent
    and nothing is removed. *)
Theorem undecodable_stderr_leaves_audio :
  let r := process_url_message (E := Scenario.env Cases.wreck)
             "check this out https://youtu.be/dQw4w9WgXcQ" 7 Scenario.w0 in
  fst r = Raise UnicodeDecodeError /\
  files (snd r) !! "dQw4w9WgXcQ.mp3" = Some 4096%N /\
  messages (trace (snd r)) =
    ["Processing YouTube URL...";
     "Fetching YouTube video details...";
     "Title: Demo" +:+ nl +:+ "Downloading audio for transcription...";
     "Transcribing audio..."] /\
  Forall (fun e => match e with
                   | EvRemove _ | EvSendDocument _ _ => False
                   | _ => True
                   end) (trace (snd r)).
Proof.
  split; [vm_compute; reflexivity|].
  split; [vm_compute; reflexivity|].
  split; [vm_compute; reflexivity|].
  vm_compute. repeat constructor.
Qed.

(* ===================================================================== *)
(* Further facts about the handler                                        *)
(* ===================================================================== *)

Lemma tell_nil (w : world) : tell w [] = w.
Proof. unfold tell. rewrite app_nil_r. now destruct w. Qed.

Section Coverage.

Context {E : Env}.

(* --------------------------------------------------------------------- *)
(* format_duration                                                        *)
(* --------------------------------------------------------------------- *)

(** X1. For an int number of seconds other than 0, format_duration gives
    hours, minutes and seconds of the floor division by 3600 and by 60,
    without the hours when they are 0; minutes and seconds are always
    within 0..59 and the three parts add up to the input. *)
Theorem format_duration_int (z : Z) :
  z <> 0 ->
  let hours := z / 3600 in
  let minutes := (z mod 3600) / 60 in
  let seconds := (z mod 3600) mod 60 in
  format_duration (JInt z) =
    Ok (if hours =? 0
        then str_of_Z minutes +:+ "m " +:+ str_of_Z seconds +:+ "s"
        else str_of_Z hours +:+ "h " +:+ str_of_Z minutes +:+ "m "
             +:+ str_of_Z seconds +:+ "s") /\
  0 <= minutes < 60 /\ 0 <= seconds < 60 /\
  z = 3600 * hours + 60 * minutes + seconds.
Proof.
  intros Hnz hours minutes seconds. split.
  - unfold format_duration. cbn [truthy].
    apply Z.eqb_neq in Hnz. rewrite Hnz. cbn [negb].
    cbn [py_divmod mbind result_bind truthy py_str].
    fold hours minutes seconds. now destruct (hours =? 0).
  - subst hours minutes seconds.
    pose proof (Z.mod_pos_bound z 3600 ltac:(lia)).
    pose proof (Z.mod_pos_bound (z mod 3600) 60 ltac:(lia)).
    pose proof (Z.div_mod z 3600 ltac:(lia)).
    pose proof (Z.div_mod (z mod 3600) 60 ltac:(lia)).
    repeat split;
      first [lia | apply Z.div_pos; lia | apply Z.div_lt_upper_bound; lia].
Qed.

(** X2. format_duration raises exactly on a truthy value that has no
    divmod, that is on a non-empty str, list or dict, and what it raises
    then is TypeError. *)
Theorem format_duration_type_error (d : json F) :
  (truthy d = true -> has_divmod d = false ->
   format_duration d = Raise TypeError) /\
  (forall e, format_duration d = Raise e ->
     e = TypeError /\ truthy d = true /\ has_divmod d = false).
Proof.
  split.
  - intros Htruthy Hnot. unfold format_duration. rewrite Htruthy.
    destruct d; try discriminate; reflexivity.
  - intros e. unfold format_duration.
    destruct (truthy d) eqn:Htruthy; [|discriminate]. cbn [negb].
    destruct d as [|b|z|f|s|l|items]; cbn [py_divmod mbind result_bind].
    + discriminate Htruthy.
    + match goal with
      | |- (if ?c then _ else _) = _ -> _ => destruct c; intros [=]
      end.
    + match goal with
      | |- (if ?c then _ else _) = _ -> _ => destruct c; intros [=]
      end.
    + destruct (float_divmod f 3600) as [q r]. cbn [mbind result_bind py_divmod].
      destruct (float_divmod r 60) as [q' r']. cbn [mbind result_bind].
      match goal with
      | |- (if ?c then _ else _) = _ -> _ => destruct c; intros [=]
      end.
    + intros [= <-]. auto.
    + intros [= <-]. auto.
    + intros [= <-]. auto.
Qed.

(* --------------------------------------------------------------------- *)
(* download_audio                                                         *)
(* --------------------------------------------------------------------- *)

(** X3. download_audio never raises and makes a single attempt: it
    starts one yt-dlp process for the URL and the output path, leaves the
    files as that process leaves them, and logs success exactly when the
    output path exists afterwards; the exit code plays no part. *)
Theorem download_audio_best_effort (url output_path : string) (w : world) :
  let command := ["yt-dlp"; "--extract-audio"; "--audio-format"; "mp3";
                  url; "-o"; output_path] in
  let fs' := snd (tool (nspawn w) command (files w)) in
  download_audio url output_path w =
    (Ok tt,
     mk_world fs' (S (nspawn w))
       (trace w ++
        [EvLog INFO ("Attempting to download audio from: " +:+ url);
         EvSpawn command;
         if bool_decide (is_Some (fs' !! output_path))
         then EvLog INFO ("Audio downloaded successfully: " +:+ output_path)
         else EvLog ERROR ("Failed to download audio: " +:+ output_path)])).
Proof.
  intros command fs'. unfold download_audio.
  rewrite bind_run, log_run, bind_run.
  destruct (tool (nspawn w) command (files w)) as [p fs''] eqn:Htool.
  rewrite (communicate_run _ (tell w _) _ _ Htool).
  subst fs'. cbn [snd]. rewrite bind_run, path_exists_run. cbn [files].
  destruct (bool_decide (is_Some (fs'' !! output_path)));
    rewrite log_run; unfold tell; cbn [files nspawn trace];
    now rewrite <- !app_assoc.
Qed.

(* --------------------------------------------------------------------- *)
(* fetch_youtube_details                                                  *)
(* --------------------------------------------------------------------- *)

Lemma spawns_app (a b : list event) : spawns (a ++ b) = spawns a ++ spawns b.
Proof.
  induction a as [|e a IH]; [reflexivity|].
  destruct e; cbn [app spawns]; now rewrite IH.
Qed.

Lemma warnings_app (a b : list event) :
  warnings (a ++ b) = warnings a ++ warnings b.
Proof.
  induction a as [|e a IH]; [reflexivity|].
  destruct e as [[] msg| | | | |]; cbn [app warnings]; now rewrite IH.
Qed.

Lemma messages_app (a b : list event) :
  messages (a ++ b) = messages a ++ messages b.
Proof.
  induction a as [|e a IH]; [reflexivity|].
  destruct e; cbn [app messages]; now rewrite IH.
Qed.

Lemma sleeps_logs (logs : list event) : Forall is_log logs -> sleeps logs = [].
Proof.
  induction 1 as [|e logs He _ IH]; [reflexivity|].
  destruct e; try contradiction. exact IH.
Qed.

Lemma ol_bind {A B} (m : M A) (f : A -> M B) :
  only_logs m -> (forall a, only_logs (f a)) -> only_logs (m ≫= f).
Proof.
  intros Hm Hf w. rewrite bind_run.
  destruct (Hm w) as (l1 & H1 & F1).
  destruct (m w) as [[a|e] w1]; cbn [snd] in H1; subst w1.
  - destruct (Hf a (tell w l1)) as (l2 & H2 & F2).
    exists (l1 ++ l2). rewrite H2, tell_tell. split; [reflexivity|].
    now apply Forall_app.
  - exists l1. auto.
Qed.

Lemma ol_ret {A} (a : A) : only_logs (mret a : M A).
Proof. intros w. exists []. rewrite ret_run, tell_nil. auto. Qed.

Lemma ol_log lvl msg : only_logs (log lvl msg).
Proof.
  intros w. exists [EvLog lvl msg]. rewrite log_run.
  split; [reflexivity|]. repeat constructor.
Qed.

Lemma ol_lift {A} (r : result A) : only_logs (lift r).
Proof. intros w. exists []. rewrite lift_run, tell_nil. auto. Qed.

Lemma ol_decode b : only_logs (decode b).
Proof.
  intros w. exists []. unfold decode, raise.
  destruct (bytes_decode b); cbn [snd]; rewrite ?ret_run, tell_nil; auto.
Qed.

(** Parsing what the process printed only logs. *)
Lemma ol_parse_details url p : only_logs (parse_details url p).
Proof.
  unfold parse_details, USE_SNIPPET_FOR_DESCRIPTION.
  apply ol_bind; [apply ol_decode|]. intros text.
  destruct (json_loads text) as [e|v].
  - apply ol_bind; [apply ol_log | intros; apply ol_ret].
  - repeat (apply ol_bind; [apply ol_lift | intros]).
    apply ol_bind; [apply ol_log | intros; apply ol_ret].
Qed.

(** One iteration of the loop, by the branch it takes. *)
Lemma fetch_attempts_step url max_retries base_delay remaining attempt w :
  let p := fst (tool (nspawn w) (details_command url) (files w)) in
  let fs' := snd (tool (nspawn w) (details_command url) (files w)) in
  let started :=
    mk_world fs' (S (nspawn w)) (trace w ++ [EvSpawn (details_command url)]) in
  fetch_attempts url max_retries base_delay (S remaining) attempt w =
  if negb (bool_decide (stderr p = [])) && negb (returncode p =? 0) then
    match bytes_decode (stderr p) with
    | Some msg =>
        fetch_attempts url max_retries base_delay remaining (attempt + 1)
          (mk_world fs' (S (nspawn w))
             (trace w ++ retry_events url max_retries base_delay attempt msg))
    | None => (Raise UnicodeDecodeError, started)
    end
  else parse_details url p started.
Proof.
  intros p fs' started. subst p fs' started.
  destruct (tool (nspawn w) (details_command url) (files w))
    as [p fs'] eqn:Htool. cbn [fst snd].
  destruct (bool_decide_reflect (stderr p = [])) as [Hquiet | Herr].
  - cbn [negb andb]. apply (fetch_attempts_parse _ _ _ _ _ _ _ _ Htool). auto.
  - destruct (Z.eqb_spec (returncode p) 0) as [Hzero | Hcode].
    + cbn [negb andb]. apply (fetch_attempts_parse _ _ _ _ _ _ _ _ Htool). auto.
    + cbn [negb andb]. destruct (bytes_decode (stderr p)) as [msg|] eqn:Hdec.
      * apply (fetch_attempts_retry _ _ _ _ _ _ _ _ _ Htool Herr Hcode Hdec).
      * cbn [fetch_attempts].
        rewrite bind_run, (communicate_run _ _ _ _ Htool).
        rewrite bool_decide_eq_false_2 by assumption.
        apply Z.eqb_neq in Hcode. rewrite Hcode. cbn [negb andb].
        unfold decode. now rewrite Hdec.
Qed.

Lemma sleeps_retry_events url max_retries base_delay attempt msg :
  sleeps (retry_events url max_retries base_delay attempt msg) =
  if attempt <? max_retries - 1 then [base_delay * 2 ^ attempt] else [].
Proof. unfold retry_events. now destruct (attempt <? max_retries - 1). Qed.

Lemma warnings_retry_events url max_retries base_delay attempt msg :
  length (warnings (retry_events url max_retries base_delay attempt msg)) = 1%nat.
Proof. unfold retry_events. now destruct (attempt <? max_retries - 1). Qed.

(** When every run of the metadata command ends in the retry branch, the
    loop uses all its iterations. *)
Lemma fetch_attempts_exhausted url max_retries base_delay :
  (forall n fs, retryable (fst (tool n (details_command url) fs))) ->
  forall remaining attempt w,
    Z.of_nat remaining = max_retries - attempt ->
    exists w',
      fetch_attempts url max_retries base_delay remaining attempt w
        = (Ok None, w') /\
      nspawn w' = (nspawn w + remaining)%nat /\
      sleeps (trace w') =
        sleeps (trace w) ++ backoff_delays base_delay attempt (remaining - 1) /\
      length (warnings (trace w')) =
        (length (warnings (trace w)) + remaining)%nat.
Proof.
  intros Hall remaining.
  induction remaining as [|remaining IH]; intros attempt w Hrange.
  - exists w. cbn [fetch_attempts]. rewrite ret_run. cbn.
    rewrite app_nil_r. repeat split; lia.
  - rewrite fetch_attempts_step.
    destruct (Hall (nspawn w) (files w)) as (Herr & Hcode & [msg Hdec]).
    rewrite bool_decide_eq_false_2 by assumption.
    apply Z.eqb_neq in Hcode. rewrite Hcode, Hdec. cbn [negb andb].
    match goal with
    | |- context [fetch_attempts _ _ _ remaining _ ?w1] =>
        destruct (IH (attempt + 1) w1 ltac:(lia))
          as (w' & Hrun & Hspawn & Hsleeps & Hwarn)
    end.
    exists w'. cbn [nspawn trace] in *.
    split; [exact Hrun|]. split; [lia|]. split.
    + rewrite Hsleeps, sleeps_app, sleeps_retry_events, <- app_assoc.
      f_equal. destruct remaining as [|remaining'].
      * replace (attempt <? max_retries - 1) with false
          by (symmetry; apply Z.ltb_ge; lia).
        reflexivity.
      * replace (attempt <? max_retries - 1) with true
          by (symmetry; apply Z.ltb_lt; lia).
        cbn [Nat.sub backoff_delays app]. now rewrite Nat.sub_0_r.
    + rewrite Hwarn, warnings_app, length_app, warnings_retry_events. lia.
Qed.

(** X4. When every run of the metadata command fails with error output
    that decodes, fetch_youtube_details returns no details after exactly
    max_retries processes and max_retries warnings, having slept
    base_delay * 2^i seconds after attempt i for every attempt but the
    last. *)
Theorem fetch_exhausts_retries url max_retries base_delay w :
  (forall n fs, retryable (fst (tool n (details_command url) fs))) ->
  0 <= max_retries ->
  exists w',
    fetch_youtube_details url max_retries base_delay w = (Ok None, w') /\
    nspawn w' = (nspawn w + Z.to_nat max_retries)%nat /\
    sleeps (trace w') =
      sleeps (trace w)
      ++ backoff_delays base_delay 0 (Z.to_nat max_retries - 1) /\
    length (warnings (trace w')) =
      (length (warnings (trace w)) + Z.to_nat max_retries)%nat.
Proof.
  intros Hall Hpos. unfold fetch_youtube_details.
  apply (fetch_attempts_exhausted _ _ _ Hall). lia.
Qed.

(** The loop starts at most one process per iteration and sleeps at most
    once per iteration but the last. *)
Lemma fetch_attempts_bounded url max_retries base_delay :
  forall remaining attempt w,
    Z.of_nat remaining = max_retries - attempt ->
    let w' := snd (fetch_attempts url max_retries base_delay remaining
                     attempt w) in
    (nspawn w' <= nspawn w + remaining)%nat /\
    (length (sleeps (trace w')) <=
     length (sleeps (trace w)) + (remaining - 1))%nat.
Proof.
  induction remaining as [|remaining IH]; intros attempt w Hrange w'; subst w'.
  - cbn [fetch_attempts]. rewrite ret_run. cbn [snd]. lia.
  - rewrite fetch_attempts_step.
    destruct (_ && _).
    + destruct (bytes_decode _) as [msg|].
      * match goal with
        | |- context [fetch_attempts _ _ _ remaining _ ?w1] =>
            destruct (IH (attempt + 1) w1 ltac:(lia)) as (Hspawn & Hsleeps)
        end.
        cbn [nspawn trace] in *.
        rewrite sleeps_app, length_app, sleeps_retry_events in Hsleeps.
        split; [lia|].
        destruct remaining as [|remaining'].
        -- replace (attempt <? max_retries - 1) with false in Hsleeps
             by (symmetry; apply Z.ltb_ge; lia).
           cbn [length] in Hsleeps. lia.
        -- destruct (attempt <? max_retries - 1); cbn [length] in Hsleeps; lia.
      * cbn [snd nspawn trace]. rewrite sleeps_app. cbn [sleeps].
        rewrite app_nil_r. lia.
    + match goal with
      | |- context [parse_details url ?p ?w1] =>
          destruct (ol_parse_details url p w1) as (logs & -> & Hlogs)
      end.
      cbn [tell nspawn trace files]. rewrite <- app_assoc, sleeps_app.
      cbn [app sleeps]. rewrite (sleeps_logs _ Hlogs), app_nil_r. lia.
Qed.

(** X5. Whatever the external program does, one call of
    fetch_youtube_details starts at most max_retries processes and sleeps
    at most max_retries - 1 times; with max_retries at 0 or below it
    returns no details without starting a process. *)
Theorem fetch_effort_bounded url max_retries base_delay w :
  let w' := snd (fetch_youtube_details url max_retries base_delay w) in
  (nspawn w' <= nspawn w + Z.to_nat max_retries)%nat /\
  (length (sleeps (trace w')) <=
   length (sleeps (trace w)) + (Z.to_nat max_retries - 1))%nat /\
  (max_retries <= 0 ->
   fetch_youtube_details url max_retries base_delay w = (Ok None, w)).
Proof.
  intros w'. subst w'. unfold fetch_youtube_details.
  destruct (Z.le_gt_cases max_retries 0) as [Hnone | Hsome].
  - replace (Z.to_nat max_retries) with 0%nat by lia.
    cbn [fetch_attempts]. rewrite ret_run. cbn [snd]. repeat split; lia.
  - destruct (fetch_attempts_bounded url max_retries base_delay
                (Z.to_nat max_retries) 0 w ltac:(lia)) as (Hspawn & Hsleeps).
    repeat split; [exact Hspawn | exact Hsleeps | lia].
Qed.

Lemma parse_details_not_object url p w text v :
  bytes_decode (stdout p) = Some text ->
  json_loads text = inr v ->
  (forall items, v <> JDict items) ->
  parse_details url p w = (Raise AttributeError, w).
Proof.
  intros Hdec Hjson Hnot. unfold parse_details, decode.
  rewrite Hdec. run_steps. rewrite Hjson.
  destruct v; try reflexivity. now contradiction (Hnot items).
Qed.

(** X6. When the process reaches the parsing branch and prints JSON that
    is not an object, the fetch neither retries nor returns: the
    AttributeError of the first .get leaves fetch_youtube_details, after
    that one process and without a log record. *)
Theorem fetch_non_object_raises url max_retries base_delay remaining attempt
    w p fs' text v :
  tool (nspawn w) (details_command url) (files w) = (p, fs') ->
  stderr p = [] \/ returncode p = 0 ->
  bytes_decode (stdout p) = Some text ->
  json_loads text = inr v ->
  (forall items, v <> JDict items) ->
  let raised :=
    (Raise AttributeError,
     mk_world fs' (S (nspawn w))
       (trace w ++ [EvSpawn (details_command url)])) in
  fetch_attempts url max_retries base_delay (S remaining) attempt w = raised /\
  (0 < max_retries ->
   fetch_youtube_details url max_retries base_delay w = raised).
Proof.
  intros Htool Hgood Hdec Hjson Hnot raised.
  assert (Hstep : forall n a,
            fetch_attempts url max_retries base_delay (S n) a w = raised).
  { intros n a. rewrite (fetch_attempts_parse _ _ _ _ _ _ _ _ Htool Hgood).
    apply (parse_details_not_object _ _ _ _ _ Hdec Hjson Hnot). }
  split; [apply Hstep|]. intros Hpos. unfold fetch_youtube_details.
  destruct (Z.to_nat max_retries) as [|n] eqn:Hn; [lia | apply Hstep].
Qed.

Lemma parse_details_returned url p w d w' :
  parse_details url p w = (Ok (Some d), w') ->
  exists text items duration_formatted,
    bytes_decode (stdout p) = Some text /\
    json_loads text = inr (JDict items) /\
    format_duration (dict_get items "duration" JNull) = Ok duration_formatted /\
    d = filtered_details items duration_formatted.
Proof.
  unfold parse_details, decode.
  destruct (bytes_decode (stdout p)) as [text|] eqn:Hdec; [|discriminate].
  run_steps. destruct (json_loads text) as [e|v] eqn:Hjson.
  - run_steps. discriminate.
  - destruct v as [| | | | | |items]; try discriminate.
    unfold py_get, USE_SNIPPET_FOR_DESCRIPTION. run_steps.
    destruct (format_duration (dict_get items "duration" JNull))
      as [duration_formatted|e] eqn:Hdur; [|discriminate].
    run_steps. intros [= <- _]. exists text, items, duration_formatted. auto.
Qed.

Lemma fetch_attempts_returned url max_retries base_delay :
  forall remaining attempt w d w',
    fetch_attempts url max_retries base_delay remaining attempt w
      = (Ok (Some d), w') ->
    exists attempt' w_last p text items duration_formatted,
      retried url max_retries base_delay attempt w attempt' w_last /\
      attempt <= attempt' < attempt + Z.of_nat remaining /\
      (nspawn w <= nspawn w_last)%nat /\
      tool (nspawn w_last) (details_command url) (files w_last)
        = (p, files w') /\
      (stderr p = [] \/ returncode p = 0) /\
      bytes_decode (stdout p) = Some text /\
      json_loads text = inr (JDict items) /\
      format_duration (dict_get items "duration" JNull)
        = Ok duration_formatted /\
      d = filtered_details items duration_formatted /\
      w' = mk_world (files w') (S (nspawn w_last))
             (trace w_last ++
              [EvSpawn (details_command url);
               EvLog INFO ("Fetched YouTube details successfully for URL: "
                           +:+ url)]).
Proof.
  induction remaining as [|remaining IH]; intros attempt w d w'.
  - cbn [fetch_attempts]. rewrite ret_run. discriminate.
  - rewrite fetch_attempts_step.
    destruct (tool (nspawn w) (details_command url) (files w))
      as [p fs'] eqn:Htool. cbn [fst snd].
    destruct (negb (bool_decide (stderr p = [])) && negb (returncode p =? 0))
      eqn:Hguard.
    + apply andb_true_iff in Hguard. destruct Hguard as [Herr Hcode].
      apply negb_true_iff, bool_decide_eq_false in Herr.
      apply negb_true_iff, Z.eqb_neq in Hcode.
      destruct (bytes_decode (stderr p)) as [msg|] eqn:Hdec; [|discriminate].
      intros Hrun. apply IH in Hrun.
      destruct Hrun as (attempt' & w_last & q & text & items & dur
                        & Hretried & Hrange & Hspawn & Hrest).
      cbn [nspawn] in Hspawn.
      exists attempt', w_last, q, text, items, dur.
      split; [exact (retried_again _ _ _ _ _ _ _ _ _ _
                       Htool Herr Hcode Hdec Hretried)|].
      split; [lia|]. split; [lia | exact Hrest].
    + assert (Hgood : stderr p = [] \/ returncode p = 0).
      { apply andb_false_iff in Hguard.
        destruct Hguard as [Hquiet | Hzero].
        - left. apply negb_false_iff, bool_decide_eq_true in Hquiet.
          exact Hquiet.
        - right. apply negb_false_iff, Z.eqb_eq in Hzero. exact Hzero. }
      intros Hrun.
      destruct (parse_details_returned _ _ _ _ _ Hrun)
        as (text & items & dur & Hdec & Hjson & Hdur & ->).
      rewrite (parse_details_object _ _ _ _ _ _ Hdec Hjson Hdur) in Hrun.
      apply (f_equal snd) in Hrun. cbn [snd] in Hrun. subst w'.
      exists attempt, w, p, text, items, dur.
      split; [apply retried_none|]. split; [lia|]. split; [lia|].
      unfold tell. cbn [files nspawn trace]. rewrite <- app_assoc.
      repeat (split; [assumption || reflexivity|]). reflexivity.
Qed.

(** X7. Details that fetch_youtube_details returns come from the JSON
    object printed by the last process it started: the attempts before
    that one all ended in the retry branch, that process went to the
    parsing branch with output that decodes and parses to an object, and
    the record returned is filtered_details of that object's items, its
    duration the text format_duration made of the object's duration,
    never the raw number. The world returned is the one that process
    left, with the success record logged. *)
Theorem fetch_returns_filtered_details url max_retries base_delay w d w' :
  fetch_youtube_details url max_retries base_delay w = (Ok (Some d), w') ->
  exists attempt w_last p text items duration_formatted,
    retried url max_retries base_delay 0 w attempt w_last /\
    0 <= attempt < max_retries /\
    tool (nspawn w_last) (details_command url) (files w_last)
      = (p, files w') /\
    (stderr p = [] \/ returncode p = 0) /\
    bytes_decode (stdout p) = Some text /\
    json_loads text = inr (JDict items) /\
    format_duration (dict_get items "duration" JNull) = Ok duration_formatted /\
    d = filtered_details items duration_formatted /\
    duration d = JStr duration_formatted /\
    title d = dict_get items "title" (JStr "No title available") /\
    tags d = dict_get items "tags" (JList [JStr "No tags available"]) /\
    (nspawn w < nspawn w')%nat /\
    w' = mk_world (files w') (S (nspawn w_last))
           (trace w_last ++
            [EvSpawn (details_command url);
             EvLog INFO ("Fetched YouTube details successfully for URL: "
                         +:+ url)]).
Proof.
  intros Hrun. apply fetch_attempts_returned in Hrun.
  destruct Hrun as (attempt & w_last & p & text & items & dur & Hretried
                    & Hrange & Hspawn & Htool & Hgood & Hdec & Hjson & Hdur
                    & -> & Hworld).
  exists attempt, w_last, p, text, items, dur.
  split; [exact Hretried|]. split; [lia|].
  split; [exact Htool|]. split; [exact Hgood|]. split; [exact Hdec|].
  split; [exact Hjson|]. split; [exact Hdur|].
  split; [reflexivity|]. split; [reflexivity|]. split; [reflexivity|].
  split; [reflexivity|]. split; [|exact Hworld].
  rewrite Hworld. cbn [nspawn]. lia.
Qed.

(** A key the object lacks reads as the default; a key it has reads as
    the value of its first item. *)
Lemma dict_get_missing (items : list (string * json F)) key default :
  ~ In key (map fst items) -> dict_get items key default = default.
Proof.
  induction items as [|[k v] items IH]; intros Hnot; [reflexivity|].
  cbn [dict_get]. destruct (String.eqb_spec k key) as [-> | Hne].
  - contradiction Hnot. now left.
  - apply IH. intros Hin. apply Hnot. now right.
Qed.

(** X8. When the process prints a JSON object that has none of the keys
    the fetch reads, the details returned are the twelve placeholders:
    "No duration available" for the duration, the one-element list for
    the tags, the "No ... available" text elsewhere. *)
Theorem fetch_fills_placeholders url max_retries base_delay remaining attempt
    w p fs' text (items : list (string * json F)) :
  tool (nspawn w) (details_command url) (files w) = (p, fs') ->
  stderr p = [] \/ returncode p = 0 ->
  bytes_decode (stdout p) = Some text ->
  json_loads text = inr (JDict items) ->
  (forall key,
     In key ["title"; "duration"; "uploader"; "upload_date"; "view_count";
             "like_count"; "average_rating"; "comment_count"; "channel_id";
             "id"; "tags"; "description"] ->
     ~ In key (map fst items)) ->
  fst (fetch_attempts url max_retries base_delay (S remaining) attempt w) =
    Ok (Some
          (mk_details (JStr "No title available")
             (JStr "No duration available")
             (JStr "No channel information available")
             (JStr "No upload date available") (JStr "No views available")
             (JStr "No likes available") (JStr "No rating available")
             (JStr "No comment count available")
             (JStr "No channel ID available")
             (JStr "No video ID available")
             (JList [JStr "No tags available"])
             (JStr "No description available"))).
Proof.
  intros Htool Hgood Hdec Hjson Hnone.
  rewrite (fetch_attempts_parse _ _ _ _ _ _ _ _ Htool Hgood).
  assert (Hdur : format_duration (dict_get items "duration" JNull)
                 = Ok "No duration available").
  { rewrite dict_get_missing by (apply Hnone; cbn [In]; tauto). reflexivity. }
  rewrite (parse_details_object _ _ _ _ _ _ Hdec Hjson Hdur).
  cbn [fst]. unfold filtered_details.
  rewrite !dict_get_missing by (apply Hnone; cbn [In]; tauto).
  reflexivity.
Qed.

(** X21. The retry branch needs a non-zero code and error output
    together; a process that leaves only one of the two is read as a
    success. With a JSON object on its output the first attempt then
    returns the details after one process, without warning or sleep. *)
Theorem fetch_reads_output_unless_both_fail url max_retries base_delay w
    p fs' text items duration_formatted :
  tool (nspawn w) (details_command url) (files w) = (p, fs') ->
  stderr p = [] \/ returncode p = 0 ->
  bytes_decode (stdout p) = Some text ->
  json_loads text = inr (JDict items) ->
  format_duration (dict_get items "duration" JNull) = Ok duration_formatted ->
  0 < max_retries ->
  fetch_youtube_details url max_retries base_delay w =
    (Ok (Some (filtered_details items duration_formatted)),
     mk_world fs' (S (nspawn w))
       (trace w ++
        [EvSpawn (details_command url);
         EvLog INFO ("Fetched YouTube details successfully for URL: "
                     +:+ url)])).
Proof.
  intros Htool Hgood Hdec Hjson Hdur Hpos. unfold fetch_youtube_details.
  destruct (Z.to_nat max_retries) as [|n] eqn:Hn; [lia|].
  rewrite (fetch_attempts_parse _ _ _ _ _ _ _ _ Htool Hgood).
  rewrite (parse_details_object _ _ _ _ _ _ Hdec Hjson Hdur).
  unfold tell. cbn [files nspawn trace]. now rewrite <- app_assoc.
Qed.

(* --------------------------------------------------------------------- *)
(* extract_youtube_video_id and the canonical URL                         *)
(* --------------------------------------------------------------------- *)

Lemma repeat_run_exact n c s :
  String.length s = n -> forallb (class_mem c) (chars s) = true ->
  repeat_run n c s = Some EmptyString.
Proof.
  revert n. induction s as [|a s IH]; intros n Hlen Hall; cbn in Hlen; subst n.
  - reflexivity.
  - cbn [chars forallb] in Hall. apply andb_true_iff in Hall as [Ha Hall].
    cbn [repeat_run]. rewrite Ha. now apply IH.
Qed.

Lemma consumed_all s : consumed s EmptyString = s.
Proof.
  rewrite <- (consumed_append s EmptyString) at 2.
  f_equal. induction s as [|a s IH]; [reflexivity|]. cbn. now rewrite <- IH.
Qed.

(** X9. The watch URL that process_url_message builds from an extracted
    id is itself a YouTube URL, and extracting from it gives the same id
    back: the canonical form is a fixed point of the extraction. *)
Theorem canonical_url_round_trip (url token : string) :
  extract_youtube_video_id url = Ok (Some token) ->
  extract_youtube_video_id ("https://www.youtube.com/watch?v=" +:+ token)
    = Ok (Some token).
Proof.
  unfold extract_youtube_video_id at 1.
  destruct (re_match YOUTUBE_REGEX url) as [[caps rest]|] eqn:Hmatch;
    [|discriminate].
  destruct (youtube_match_token _ _ _ Hmatch)
    as (token' & before & Hgroup & _ & Hlen & Hall).
  rewrite Hgroup. intros [= <-].
  pose proof (repeat_run_exact _ _ _ Hlen Hall) as Hrep.
  unfold extract_youtube_video_id, re_match, YOUTUBE_REGEX.
  cbv -[repeat_run consumed class_mem].
  rewrite Hrep. cbn. now rewrite consumed_all.
Qed.

(* --------------------------------------------------------------------- *)
(* get_description_snippet                                                *)
(* --------------------------------------------------------------------- *)

Lemma split_on_cons c s : exists line rest, split_on c s = line :: rest.
Proof.
  destruct s as [|a s]; cbn [split_on]; [eauto|].
  destruct (Ascii.eqb a c); [eauto|].
  destruct (split_on c s); eauto.
Qed.

Lemma concat_cons sep (x y : string) (lines : list string) :
  String.concat sep (x :: y :: lines) =
  x +:+ sep +:+ String.concat sep (y :: lines).
Proof. reflexivity. Qed.

(** '\n'.join(s.split('\n')) == s *)
Lemma concat_split_on c s :
  String.concat (String c EmptyString) (split_on c s) = s.
Proof.
  induction s as [|a s IH]; [reflexivity|]. cbn [split_on].
  destruct (split_on_cons c s) as (line & rest & Hsplit).
  rewrite Hsplit in *.
  destruct (Ascii.eqb_spec a c) as [-> | Hne].
  - rewrite concat_cons, IH. reflexivity.
  - destruct rest as [|y rest].
    + cbn [String.concat] in *. now rewrite IH.
    + rewrite concat_cons in *. rewrite <- IH. reflexivity.
Qed.

(** The first lines joined are a prefix of all the lines joined. *)
Lemma concat_take_prefix sep (n : nat) (lines : list string) :
  exists rest,
    String.concat sep lines = String.concat sep (take n lines) +:+ rest.
Proof.
  revert n. induction lines as [|x lines IH]; intros n.
  - exists EmptyString. now destruct n.
  - destruct n as [|n]; [cbn [take String.concat]; eexists; reflexivity|].
    destruct lines as [|y lines].
    + exists EmptyString. cbn [take String.concat]. rewrite take_nil.
      clear. induction x as [|a x IHx]; [reflexivity|].
      cbn [String.append]. now rewrite <- IHx.
    + destruct n as [|n].
      * rewrite concat_cons. cbn [take String.concat]. eexists. reflexivity.
      * destruct (IH (S n)) as (rest & Hrest).
        cbn [take] in *. rewrite !concat_cons, Hrest.
        exists rest. now rewrite !append_assoc.
Qed.

(** X10. get_description_snippet returns a prefix of the description,
    and the description itself when it has no more than max_lines lines;
    a description that is not a str raises AttributeError. *)
Theorem get_description_snippet_prefix (description : json F) (max_lines : nat) :
  match description with
  | JStr s =>
      exists snippet rest,
        get_description_snippet description max_lines = Ok (JStr snippet) /\
        s = snippet +:+ rest /\
        ((length (split_on (ascii_of_nat 10) s) <= max_lines)%nat ->
         snippet = s)
  | _ => get_description_snippet description max_lines = Raise AttributeError
  end.
Proof.
  destruct description as [| | | |s| |]; try reflexivity.
  cbn [get_description_snippet].
  destruct (concat_take_prefix nl max_lines (split_on (ascii_of_nat 10) s))
    as (rest & Hrest).
  unfold nl in *. rewrite concat_split_on in Hrest.
  eexists _, rest. split; [reflexivity|]. split; [exact Hrest|].
  intros Hfew. rewrite take_ge by exact Hfew. apply concat_split_on.
Qed.

Lemma split_on_free c s : free_of c s -> split_on c s = [s].
Proof.
  unfold free_of. induction s as [|a s IH]; [reflexivity|].
  cbn [chars forallb split_on]. intros Hfree.
  apply andb_true_iff in Hfree as [Ha Hfree].
  apply negb_true_iff in Ha. rewrite Ha, (IH Hfree). reflexivity.
Qed.

Lemma split_on_append c line s :
  free_of c line ->
  split_on c (line +:+ String c s) = line :: split_on c s.
Proof.
  unfold free_of. induction line as [|a line IH]; cbn [String.append].
  - intros _. cbn [split_on]. now rewrite Ascii.eqb_refl.
  - cbn [chars forallb split_on]. intros Hfree.
    apply andb_true_iff in Hfree as [Ha Hfree].
    apply negb_true_iff in Ha. rewrite Ha, (IH Hfree). reflexivity.
Qed.

Lemma split_on_lines_free c s : Forall (free_of c) (split_on c s).
Proof.
  induction s as [|a s IH]; cbn [split_on]; [now repeat constructor|].
  destruct (Ascii.eqb a c) eqn:Ha; [now constructor|].
  destruct (split_on c s) as [|line rest].
  { constructor; [|constructor].
    unfold free_of. cbn [chars forallb]. now rewrite Ha. }
  inversion IH as [|? ? Hline Hrest]; subst. constructor; [|exact Hrest].
  unfold free_of in *. cbn [chars forallb]. now rewrite Ha, Hline.
Qed.

(** s.split(c) undoes c.join(lines) for lines without c. *)
Lemma split_on_concat c (lines : list string) :
  lines <> [] -> Forall (free_of c) lines ->
  split_on c (String.concat (String c EmptyString) lines) = lines.
Proof.
  induction lines as [|x lines IH]; [congruence|]. intros _ Hfree.
  inversion Hfree as [|? ? Hx Hrest]; subst.
  destruct lines as [|y lines].
  - now apply split_on_free.
  - rewrite concat_cons. cbn [String.append].
    rewrite split_on_append by exact Hx. f_equal. now apply IH.
Qed.

(** X11. With max_lines at least 1 the lines of the snippet are exactly
    the first max_lines lines of the description, so the snippet never
    has more than max_lines lines. *)
Theorem get_description_snippet_lines (s : string) (max_lines : nat) :
  (1 <= max_lines)%nat ->
  exists snippet,
    get_description_snippet (JStr s : json F) max_lines = Ok (JStr snippet) /\
    split_on (ascii_of_nat 10) snippet
      = take max_lines (split_on (ascii_of_nat 10) s) /\
    (length (split_on (ascii_of_nat 10) snippet) <= max_lines)%nat.
Proof.
  intros Hpos. cbn [get_description_snippet]. eexists. split; [reflexivity|].
  assert (Hlines : split_on (ascii_of_nat 10)
                     (String.concat nl (take max_lines
                                          (split_on (ascii_of_nat 10) s)))
                   = take max_lines (split_on (ascii_of_nat 10) s)).
  { apply split_on_concat.
    - destruct (split_on_cons (ascii_of_nat 10) s) as (line & rest & ->).
      destruct max_lines; [lia | discriminate].
    - apply Forall_take, split_on_lines_free. }
  split; [exact Hlines|]. rewrite Hlines, length_take. lia.
Qed.

(* --------------------------------------------------------------------- *)
(* The URLs that process_url_message finds                                *)
(* --------------------------------------------------------------------- *)

Lemma lit_run_spec p s rest : lit_run p s = Some rest -> s = p +:+ rest.
Proof.
  revert s. induction p as [|a p IH]; intros s; cbn [lit_run].
  - now intros [= ->].
  - destruct s as [|b s]; [discriminate|].
    destruct (Ascii.eqb_spec a b) as [-> | _]; [|discriminate].
    intros Hrun. cbn [String.append]. now rewrite (IH _ Hrun).
Qed.

(** c+ in front of a continuation that takes anything stops only at the
    end of the text or at a character outside the class. *)
Lemma plus_run_greedy {R} (c : cclass) (k : string -> option R) :
  (forall r, is_Some (k r)) ->
  forall s x,
    plus_run c s k = Some x ->
    exists body rest,
      s = body +:+ rest /\ body <> EmptyString /\
      forallb (class_mem c) (chars body) = true /\
      k rest = Some x /\ stops c rest.
Proof.
  intros Htotal. induction s as [|a s IH]; intros x; cbn [plus_run];
    [discriminate|].
  destruct (class_mem c a) eqn:Ha; [|discriminate].
  destruct (plus_run c s k) as [y|] eqn:Hmore.
  - intros [= ->]. destruct (IH _ eq_refl) as (body & rest & -> & _ & Hall & Hk & Hstop).
    exists (String a body), rest. cbn [chars forallb String.append].
    rewrite Ha, Hall. repeat split; auto; discriminate.
  - intros Hk. exists (String a EmptyString), s.
    cbn [chars forallb String.append]. rewrite Ha.
    split; [reflexivity|]. split; [discriminate|].
    split; [reflexivity|]. split; [exact Hk|].
    destruct s as [|b s]; [exact I|]. cbn [plus_run stops] in *.
    destruct (class_mem c b); [|reflexivity].
    destruct (plus_run c s k); [discriminate|].
    destruct (Htotal s) as [z Hz]. congruence.
Qed.

(** What a match of URL_REGEX looks like. *)
Lemma url_match_shape (s : string) (caps : captures) (rest : string) :
  re_match URL_REGEX s = Some (caps, rest) ->
  exists scheme body,
    group 1 caps = Some (scheme +:+ body) /\
    s = (scheme +:+ body) +:+ rest /\
    (scheme = "http://" \/ scheme = "https://") /\
    body <> EmptyString /\
    forallb (class_mem CNonSpace) (chars body) = true /\
    stops CNonSpace rest.
Proof.
  unfold re_match, URL_REGEX. cbn [run].
  destruct (lit_run "http" s) as [s1|] eqn:H1; [|discriminate].
  apply lit_run_spec in H1. subst s.
  assert (Htail : forall scheme s3 x,
    plus_run CNonSpace s3
      (fun s' => Some ([(1%nat, consumed (scheme +:+ s3) s')], s')) = Some x ->
    exists body,
      x = ([(1%nat, scheme +:+ body)], snd x) /\
      s3 = body +:+ snd x /\ body <> EmptyString /\
      forallb (class_mem CNonSpace) (chars body) = true /\
      stops CNonSpace (snd x)).
  { intros scheme s3 x Hrun.
    apply plus_run_greedy in Hrun; [|eauto].
    destruct Hrun as (body & r & -> & Hne & Hall & [= <-] & Hstop).
    exists body. cbn [snd]. rewrite <- append_assoc, consumed_append. auto. }
  destruct (lit_run "s" s1) as [s2|] eqn:H2.
  - apply lit_run_spec in H2. subst s1.
    destruct (lit_run "://" s2) as [s3|] eqn:H3.
    + apply lit_run_spec in H3. subst s2.
      destruct (plus_run CNonSpace s3 _) as [x|] eqn:Hplus.
      * intros [= Hx]. apply (Htail "https://") in Hplus.
        destruct Hplus as (body & Hcaps & Hs3 & Hne & Hall & Hstop).
        rewrite Hx in Hcaps, Hs3, Hstop. cbn [snd] in *.
        injection Hcaps as ->. exists "https://", body.
        rewrite Hs3 at 1. cbn [group Nat.eqb]. repeat split; auto.
      * cbn. discriminate.
    + cbn. discriminate.
  - destruct (lit_run "://" s1) as [s3|] eqn:H3; [|discriminate].
    apply lit_run_spec in H3. subst s1. intros Hplus.
    apply (Htail "http://") in Hplus.
    destruct Hplus as (body & Hcaps & Hs3 & Hne & Hall & Hstop).
    cbn [snd] in *. injection Hcaps as ->. exists "http://", body.
    rewrite Hs3 at 1. cbn [group Nat.eqb]. repeat split; auto.
Qed.

Lemma findall_from_found (r : regex) :
  forall s skip found,
    In found (findall_from r skip s) ->
    exists tail caps rest,
      suffix_of tail s /\ re_match r tail = Some (caps, rest) /\
      found = default EmptyString (group 1 caps).
Proof.
  induction s as [|a s IH]; intros skip found; destruct skip as [|skip];
    cbn [findall_from].
  - destruct (re_match r EmptyString) as [[caps rest]|] eqn:Hm; [|intros []].
    intros [<- | []]. exists EmptyString, caps, rest.
    split; [apply suffix_of_refl | auto].
  - intros [].
  - destruct (re_match r (String a s)) as [[caps rest]|] eqn:Hm.
    + intros [<- | Hin].
      * exists (String a s), caps, rest. split; [apply suffix_of_refl | auto].
      * destruct (IH _ _ Hin) as (tail & caps' & rest' & Hsuf & Hm' & ->).
        exists tail, caps', rest'. split; [now apply suffix_of_tail | auto].
    + intros Hin.
      destruct (IH _ _ Hin) as (tail & caps' & rest' & Hsuf & Hm' & ->).
      exists tail, caps', rest'. split; [now apply suffix_of_tail | auto].
  - intros Hin.
    destruct (IH _ _ Hin) as (tail & caps' & rest' & Hsuf & Hm' & ->).
    exists tail, caps', rest'. split; [now apply suffix_of_tail | auto].
Qed.

(** X12. Every URL that process_url_message takes from a message is a
    piece of the message that starts with http:// or https://, goes on
    with at least one character, has no white space after the scheme and
    runs up to the next white space or to the end of the message. *)
Theorem found_urls_shape (message_text url : string) :
  In url (findall URL_REGEX message_text) ->
  exists scheme body before rest,
    url = scheme +:+ body /\
    (scheme = "http://" \/ scheme = "https://") /\
    body <> EmptyString /\
    forallb (fun a => negb (is_space a)) (chars body) = true /\
    message_text = before +:+ url +:+ rest /\
    stops CNonSpace rest.
Proof.
  unfold findall. intros Hin.
  destruct (findall_from_found _ _ _ _ Hin)
    as (tail & caps & rest & [before ->] & Hmatch & ->).
  destruct (url_match_shape _ _ _ Hmatch)
    as (scheme & body & Hgroup & -> & Hscheme & Hne & Hall & Hstop).
  rewrite Hgroup. cbn [default].
  exists scheme, body, before, rest. auto 10.
Qed.

(* --------------------------------------------------------------------- *)
(* What the three helpers leave in the trace                              *)
(* --------------------------------------------------------------------- *)

Lemma ap_bind {A B} P (m : M A) (f : A -> M B) :
  appends P m -> (forall a, appends P (f a)) -> appends P (m ≫= f).
Proof.
  intros Hm Hf w. rewrite bind_run.
  destruct (Hm w) as (l1 & H1 & F1).
  destruct (m w) as [[a|e] w1]; cbn [snd] in H1.
  - destruct (Hf a w1) as (l2 & H2 & F2).
    exists (l1 ++ l2). rewrite H2, H1, app_assoc. split; [reflexivity|].
    now apply Forall_app.
  - exists l1. auto.
Qed.

Lemma ap_only_logs {A} (P : event -> Prop) (m : M A) :
  (forall e, is_log e -> P e) -> only_logs m -> appends P m.
Proof.
  intros Hlog Hm w. destruct (Hm w) as (logs & -> & Hlogs).
  exists logs. split; [reflexivity|].
  eapply Forall_impl; [exact Hlogs | exact Hlog].
Qed.

Lemma ap_emit (P : event -> Prop) e : P e -> appends P (emit e).
Proof. intros He w. exists [e]. rewrite emit_run. auto. Qed.

Lemma ap_unchanged {A} (P : event -> Prop) (m : M A) :
  (forall w, snd (m w) = w) -> appends P m.
Proof. intros Hm w. exists []. rewrite Hm, app_nil_r. auto. Qed.

Lemma ap_communicate (P : event -> Prop) command :
  P (EvSpawn command) -> appends P (communicate command).
Proof.
  intros Hspawn w. unfold communicate.
  destruct (tool _ _ _) as [p fs']. exists [EvSpawn command]. auto.
Qed.

Lemma ol_verify_files todo created : only_logs (verify_files todo created).
Proof.
  intros w. destruct (verify_files_run todo created w) as (logs & -> & Hlogs).
  exists logs. auto.
Qed.

Lemma internal_log e : is_log e -> internal_event e.
Proof. now destruct e. Qed.

Lemma ap_fetch_attempts url max_retries base_delay remaining :
  forall attempt,
    appends internal_event
      (fetch_attempts url max_retries base_delay remaining attempt).
Proof.
  induction remaining as [|remaining IH]; intros attempt;
    cbn [fetch_attempts].
  - apply ap_only_logs; [exact internal_log | apply ol_ret].
  - apply ap_bind; [now apply ap_communicate|]. intros p.
    destruct (_ && _).
    + apply ap_bind;
        [apply ap_only_logs; [exact internal_log | apply ol_decode]|].
      intros msg.
      apply ap_bind; [now apply ap_emit|]. intros _.
      apply ap_bind; [|intros _; apply IH].
      destruct (attempt <? max_retries - 1); [|now apply ap_emit].
      apply ap_bind; [now apply ap_emit | intros _; now apply ap_emit].
    + apply ap_only_logs; [exact internal_log | apply ol_parse_details].
Qed.

Lemma ap_download_audio url output_path :
  appends internal_event (download_audio url output_path).
Proof.
  unfold download_audio.
  apply ap_bind; [now apply ap_emit|]. intros _.
  apply ap_bind; [now apply ap_communicate|]. intros _.
  apply ap_bind; [now apply ap_unchanged|]. intros found.
  destruct found; now apply ap_emit.
Qed.

Lemma ap_transcribe_audio audio_path output_dir youtube_url :
  appends internal_event (transcribe_audio audio_path output_dir youtube_url).
Proof.
  unfold transcribe_audio.
  apply ap_bind; [now apply ap_emit|]. intros _.
  apply ap_bind; [now apply ap_communicate|]. intros p.
  apply ap_bind.
  - destruct (negb _); [|now apply ap_emit].
    apply ap_bind; [now apply ap_emit|]. intros _.
    apply ap_bind;
      [apply ap_only_logs; [exact internal_log | apply ol_decode]|].
    intros msg. now apply ap_emit.
  - intros _. apply ap_only_logs; [exact internal_log|].
    apply ol_verify_files.
Qed.

(** X13. fetch_youtube_details, download_audio and transcribe_audio
    never call the bot and never remove a file: whatever the programs do,
    all they add to the trace are log records, processes started and
    sleeps. *)
Theorem helpers_stay_internal :
  (forall url max_retries base_delay,
     appends internal_event
       (fetch_youtube_details url max_retries base_delay)) /\
  (forall url output_path,
     appends internal_event (download_audio url output_path)) /\
  (forall audio_path output_dir youtube_url,
     appends internal_event
       (transcribe_audio audio_path output_dir youtube_url)).
Proof.
  split; [|split]; intros.
  - apply ap_fetch_attempts.
  - apply ap_download_audio.
  - apply ap_transcribe_audio.
Qed.

(* --------------------------------------------------------------------- *)
(* The paths of one iteration of process_url_message                      *)
(* --------------------------------------------------------------------- *)

Lemma messages_internal evs : Forall internal_event evs -> messages evs = [].
Proof.
  induction 1 as [|e evs He _ IH]; [reflexivity|].
  destruct e; try contradiction; exact IH.
Qed.

Lemma messages_documents chat (items : list (string * string)) :
  messages (map (fun item => EvSendDocument chat (snd item)) items) = [].
Proof. induction items as [|item items IH]; [reflexivity | exact IH]. Qed.

(** What a stage adds to the trace, read off its outcome. *)
Lemma appended {A} (m : M A) (w : world) (r : result A) (w' : world) :
  appends internal_event m -> m w = (r, w') ->
  messages (trace w') = messages (trace w).
Proof.
  intros Hm Hrun. destruct (Hm w) as (evs & Htrace & Hevs).
  rewrite Hrun in Htrace. cbn [snd] in Htrace.
  rewrite Htrace, messages_app, (messages_internal _ Hevs). apply app_nil_r.
Qed.

(** X14. An iteration that gets through the transcription tells the
    user, in this order and with nothing in between: processing,
    fetching, the title with the download notice, transcribing, and
    then either the failure of the transcription (empty set) or the
    announcement of the files followed by the closing message. *)
Theorem notifications_in_order chat url w audio_path created w3 :
  transcribed chat url w audio_path created w3 ->
  is_Some (files w3 !! audio_path) ->
  exists shown w',
    process_url chat url w = (Ok tt, w') /\
    messages (trace w') =
      messages (trace w)
      ++ ["Processing YouTube URL...";
          "Fetching YouTube video details...";
          "Title: " +:+ shown +:+ nl
            +:+ "Downloading audio for transcription...";
          "Transcribing audio..."]
      ++ match created with
         | [] => ["Failed to transcribe audio."]
         | _ => ["Sending transcription files...";
                 "There ya go, have a nice day! :-)"]
         end.
Proof.
  intros Hreach Haudio.
  rewrite (process_url_transcribed _ _ _ _ _ _ Hreach).
  destruct (transcribed_files _ _ _ _ _ _ Hreach) as [_ Hfiles].
  destruct (deliver_and_clean_up_run chat audio_path created w3)
    as (_ & Hrun & _).
  { intros item Hin. now apply Hfiles. }
  rewrite (Hrun Haudio).
  destruct Hreach as (caps & rest & d & w1 & w2 & _ & _ & Hfetch & Hdown & _
                      & Htrans).
  apply (appended _ _ _ _ (ap_fetch_attempts _ _ _ _ _)) in Hfetch.
  apply (appended _ _ _ _ (ap_download_audio _ _)) in Hdown.
  apply (appended _ _ _ _ (ap_transcribe_audio _ _ _)) in Htrans.
  cbn [tell trace] in Hfetch, Hdown, Htrans.
  rewrite !messages_app in Hfetch, Hdown, Htrans.
  exists (py_str (title d)). eexists. split; [reflexivity|].
  cbn [trace]. rewrite messages_app, Htrans, Hdown, Hfetch.
  cbn [messages]. rewrite <- !app_assoc. f_equal. cbn [app]. do 4 f_equal.
  unfold closing_events. destruct created as [|item created]; [reflexivity|].
  rewrite !messages_app, messages_documents. reflexivity.
Qed.

(** X15. When the fetch returns no details, the iteration tells the user
    so and ends: nothing is downloaded, transcribed or removed for that
    URL, and the loop goes on with the next URL. *)
Theorem fetch_failure_ends_iteration chat url urls w caps rest w1 :
  re_match YOUTUBE_REGEX url = Some (caps, rest) ->
  fetch_youtube_details
    ("https://www.youtube.com/watch?v=" +:+ opt_str (group 6 caps)) 3 5
    (tell w [EvSendMessage chat "Processing YouTube URL...";
             EvSendMessage chat "Fetching YouTube video details..."])
    = (Ok None, w1) ->
  let failed := tell w1 [EvSendMessage chat "Failed to fetch video details."] in
  process_url chat url w = (Ok tt, failed) /\
  for_each (process_url chat) (url :: urls) w =
    for_each (process_url chat) urls failed.
Proof.
  intros Hmatch Hfetch failed.
  assert (Hrun : process_url chat url w = (Ok tt, failed)).
  { unfold process_url, extract_youtube_video_id.
    rewrite Hmatch. rewrite bool_decide_eq_true_2 by eauto. cbn [negb].
    run_steps. rewrite Hfetch. reflexivity. }
  split; [exact Hrun|]. cbn [for_each]. now rewrite bind_run, Hrun.
Qed.

Lemma process_url_downloaded chat url w youtube_url audio_path w2 :
  downloaded chat url w youtube_url audio_path w2 ->
  process_url chat url w =
    (found ← path_exists audio_path;
     if negb found then
       send_message chat "Audio file could not be downloaded."
     else
       send_message chat "Transcribing audio..." ;;
       transcription_paths ←
         transcribe_audio audio_path "transcriptions" youtube_url;
       deliver_and_clean_up chat audio_path transcription_paths) w2.
Proof.
  intros (caps & rest & d & w1 & Hmatch & -> & -> & Hfetch & Hdown).
  unfold process_url, extract_youtube_video_id.
  rewrite Hmatch. rewrite bool_decide_eq_true_2 by eauto. cbn [negb].
  run_steps. rewrite Hfetch. run_steps. rewrite Hdown. reflexivity.
Qed.

(** X16. When download_audio has run and the audio file is not there,
    the iteration tells the user so and ends there: no transcription
    process is started and nothing is removed. *)
Theorem download_failure_ends_iteration chat url urls w youtube_url
    audio_path w2 :
  downloaded chat url w youtube_url audio_path w2 ->
  files w2 !! audio_path = None ->
  let failed :=
    tell w2 [EvSendMessage chat "Audio file could not be downloaded."] in
  process_url chat url w = (Ok tt, failed) /\
  for_each (process_url chat) (url :: urls) w =
    for_each (process_url chat) urls failed.
Proof.
  intros Hreach Hnone failed.
  assert (Hrun : process_url chat url w = (Ok tt, failed)).
  { rewrite (process_url_downloaded _ _ _ _ _ _ Hreach).
    rewrite bind_run, path_exists_run, Hnone.
    rewrite bool_decide_eq_false_2 by (intros [? ?]; discriminate).
    reflexivity. }
  split; [exact Hrun|]. cbn [for_each]. now rewrite bind_run, Hrun.
Qed.

(** X17. When the transcription process exits with a non-zero code and
    error output that does not decode, the UnicodeDecodeError leaves
    process_url_message: the audio file is not removed by the handler
    (the files are as the process left them), no message follows, and
    the URLs after this one are not processed. *)
Theorem undecodable_stderr_aborts_message chat url urls w youtube_url
    audio_path w2 p fs' :
  downloaded chat url w youtube_url audio_path w2 ->
  is_Some (files w2 !! audio_path) ->
  tool (nspawn w2) ["whisper"; audio_path; "--output_dir"; "transcriptions"]
       (files w2) = (p, fs') ->
  returncode p <> 0 -> bytes_decode (stderr p) = None ->
  let aborted :=
    (Raise UnicodeDecodeError,
     mk_world fs' (S (nspawn w2))
       (trace w2 ++
        [EvSendMessage chat "Transcribing audio...";
         EvLog INFO ("Starting transcription for: " +:+ audio_path);
         EvSpawn ["whisper"; audio_path; "--output_dir"; "transcriptions"];
         EvLog ERROR ("Whisper process failed with return code "
                      +:+ str_of_Z (returncode p))])) in
  process_url chat url w = aborted /\
  for_each (process_url chat) (url :: urls) w = aborted.
Proof.
  intros Hreach Haudio Htool Hcode Hdec aborted.
  assert (Hrun : process_url chat url w = aborted).
  { rewrite (process_url_downloaded _ _ _ _ _ _ Hreach).
    rewrite bind_run, path_exists_run.
    rewrite bool_decide_eq_true_2 by exact Haudio. cbn [negb].
    rewrite bind_run, send_message_run, bind_run.
    unfold transcribe_audio.
    rewrite bind_run, log_run, bind_run.
    rewrite (communicate_run _ (tell (tell w2 _) _) _ _ Htool).
    rewrite bind_run. apply Z.eqb_neq in Hcode. rewrite Hcode. cbn [negb].
    unfold decode. rewrite Hdec. run_steps. unfold raise, aborted, tell.
    cbn [files nspawn trace]. now rewrite <- !app_assoc. }
  split; [exact Hrun|]. cbn [for_each]. rewrite bind_run, Hrun. reflexivity.
Qed.

(** X18. When the audio file has vanished by the time of the clean-up,
    os.remove raises FileNotFoundError for the audio path and the error
    leaves the handler: on the delivery path the files have been sent by
    then and the closing message is not sent, and the URLs after this one
    are not processed. *)
Theorem cleanup_of_missing_audio_raises chat url urls w audio_path created w3 :
  transcribed chat url w audio_path created w3 ->
  files w3 !! audio_path = None ->
  let aborted :=
    (Raise (FileNotFoundError audio_path),
     tell w3
       match created with
       | [] => [EvSendMessage chat "Failed to transcribe audio."]
       | _ => EvSendMessage chat "Sending transcription files..."
              :: map (fun item => EvSendDocument chat (snd item)) created
       end) in
  process_url chat url w = aborted /\
  for_each (process_url chat) (url :: urls) w = aborted.
Proof.
  intros Hreach Hnone aborted.
  assert (Hrun : process_url chat url w = aborted).
  { rewrite (process_url_transcribed _ _ _ _ _ _ Hreach).
    destruct (transcribed_files _ _ _ _ _ _ Hreach) as [_ Hfiles].
    unfold deliver_and_clean_up, aborted.
    destruct created as [|item created].
    - rewrite bind_run, send_message_run, os_remove_run.
      cbn [tell files]. now rewrite Hnone.
    - rewrite bind_run, send_message_run, bind_run.
      rewrite send_documents_run
        by (intros other Hin; now apply Hfiles).
      rewrite tell_tell, bind_run, os_remove_run.
      cbn [tell files]. now rewrite Hnone. }
  split; [exact Hrun|]. cbn [for_each]. rewrite bind_run, Hrun. reflexivity.
Qed.

(* --------------------------------------------------------------------- *)
(* File names                                                             *)
(* --------------------------------------------------------------------- *)

Lemma rfind_free c s : free_of c s -> rfind c s = -1.
Proof.
  unfold free_of. induction s as [|a s IH]; [reflexivity|].
  cbn [chars forallb rfind]. intros Hfree.
  apply andb_true_iff in Hfree as [Ha Hfree].
  apply negb_true_iff in Ha. now rewrite (IH Hfree), Ha.
Qed.

Lemma rfind_last c s t :
  free_of c t -> rfind c (s +:+ String c t) = Z.of_nat (String.length s).
Proof.
  intros Hfree. induction s as [|a s IH]; cbn [String.append rfind].
  - rewrite (rfind_free _ _ Hfree), Ascii.eqb_refl. reflexivity.
  - rewrite IH. cbn [String.length].
    destruct (Z.leb_spec 0 (Z.of_nat (String.length s))); lia.
Qed.

Lemma free_of_append c a b : free_of c a -> free_of c b -> free_of c (a +:+ b).
Proof.
  unfold free_of. intros Ha Hb. induction a as [|x a IH]; [exact Hb|].
  cbn [String.append chars forallb] in *.
  apply andb_true_iff in Ha as [Hx Ha]. now rewrite Hx, IH.
Qed.

Lemma substring_all s : substring 0 (String.length s) s = s.
Proof. induction s as [|a s IH]; [reflexivity|]. cbn. now rewrite IH. Qed.

(** The stem of "<id>.mp3" is the id, for an id without a slash that is
    not made of dots only. *)
Lemma stem_of_id (id : string) :
  free_of "/" id ->
  existsb (fun a => negb (Ascii.eqb a ".")) (chars id) = true ->
  splitext_root (basename (id +:+ ".mp3")) = id.
Proof.
  intros Hslash Hdot.
  assert (Hbase : basename (id +:+ ".mp3") = id +:+ ".mp3").
  { unfold basename, slice_from, slice.
    rewrite rfind_free by (apply free_of_append; [exact Hslash | reflexivity]).
    change (-1 + 1) with 0. rewrite Z.sub_0_r, Nat2Z.id.
    change (Z.to_nat 0) with 0%nat. apply substring_all. }
  rewrite Hbase. unfold splitext_root.
  rewrite rfind_free by (apply free_of_append; [exact Hslash | reflexivity]).
  change (id +:+ ".mp3") with (id +:+ String "." "mp3").
  rewrite rfind_last by reflexivity.
  replace (-1 <? Z.of_nat (String.length id)) with true
    by (symmetry; apply Z.ltb_lt; lia).
  unfold slice. change (-1 + 1) with 0.
  rewrite !Z.sub_0_r, !Nat2Z.id. change (Z.to_nat 0) with 0%nat.
  rewrite !substring_prefix, Hdot. reflexivity.
Qed.

(** X19. For the audio file <id>.mp3 of an id that has no slash and is
    not made of dots only, transcribe_audio looks for exactly
    <output_dir>/<id>.txt, .srt and .vtt and returns those of them that
    are present: the transcripts are named after the id. *)
Theorem transcripts_named_after_id (id output_dir youtube_url : string)
    w p fs' :
  free_of "/" id ->
  existsb (fun a => negb (Ascii.eqb a ".")) (chars id) = true ->
  tool (nspawn w) ["whisper"; id +:+ ".mp3"; "--output_dir"; output_dir]
       (files w) = (p, fs') ->
  returncode p = 0 \/ is_Some (bytes_decode (stderr p)) ->
  fst (transcribe_audio (id +:+ ".mp3") output_dir youtube_url w) =
    Ok (List.filter (fun item => present fs' (snd item))
          [("txt", output_dir +:+ "/" +:+ id +:+ ".txt");
           ("srt", output_dir +:+ "/" +:+ id +:+ ".srt");
           ("vtt", output_dir +:+ "/" +:+ id +:+ ".vtt")]).
Proof.
  intros Hslash Hdot Htool Hfine.
  destruct (transcribe_audio_run (id +:+ ".mp3") output_dir youtube_url
              _ _ _ Htool Hfine) as (evs & ->).
  cbn [fst]. unfold transcript_files. now rewrite (stem_of_id _ Hslash Hdot).
Qed.

(* --------------------------------------------------------------------- *)
(* Messages without a URL                                                 *)
(* --------------------------------------------------------------------- *)

Lemma free_of_append_inv c a b :
  free_of c (a +:+ b) -> free_of c a /\ free_of c b.
Proof.
  unfold free_of. induction a as [|x a IH]; cbn [String.append chars forallb].
  - auto.
  - intros Hfree. apply andb_true_iff in Hfree as [Hx Hfree].
    destruct (IH Hfree) as [Ha Hb]. now rewrite Hx, Ha.
Qed.

(** X20. A message without a colon holds no URL: process_url_message
    returns at once and leaves the world as it is: no message to the
    user, no process, no file touched. *)
Theorem message_without_colon_is_ignored (message_text : string) chat w :
  free_of ":" message_text ->
  findall URL_REGEX message_text = [] /\
  process_url_message message_text chat w = (Ok tt, w).
Proof.
  intros Hfree.
  assert (Hnone : findall URL_REGEX message_text = []).
  { destruct (findall URL_REGEX message_text) as [|url urls] eqn:Hfound;
      [reflexivity|].
    exfalso. unfold findall in Hfound.
    destruct (findall_from_found URL_REGEX message_text 0 url)
      as (tail & caps & rest & [before ->] & Hmatch & _).
    { rewrite Hfound. now left. }
    destruct (url_match_shape _ _ _ Hmatch)
      as (scheme & body & _ & -> & Hscheme & _).
    apply free_of_append_inv in Hfree as [_ Hfree].
    apply free_of_append_inv in Hfree as [Hfree _].
    apply free_of_append_inv in Hfree as [Hfree _].
    destruct Hscheme as [-> | ->]; discriminate Hfree. }
  split; [exact Hnone|]. unfold process_url_message. now rewrite Hnone.
Qed.

(* --------------------------------------------------------------------- *)
(* How much one message can cost                                          *)
(* --------------------------------------------------------------------- *)

Lemma costs_bind {A B} n1 k1 n2 k2 (m : M A) (f : A -> M B) :
  costs n1 k1 m -> (forall a, costs n2 k2 (f a)) ->
  costs (n1 + n2) (k1 + k2) (m ≫= f).
Proof.
  intros Hm Hf w. rewrite bind_run. destruct (Hm w) as [Hn Hk].
  destruct (m w) as [[a|e] w1]; cbn [snd] in *.
  - destruct (Hf a w1). lia.
  - lia.
Qed.

Lemma costs_weaken {A} n k n' k' (m : M A) :
  costs n k m -> (n <= n')%nat -> (k <= k')%nat -> costs n' k' m.
Proof. intros Hm Hn Hk w. destruct (Hm w). lia. Qed.

Lemma costs_only_logs {A} (m : M A) : only_logs m -> costs 0 0 m.
Proof.
  intros Hm w. destruct (Hm w) as (logs & -> & Hlogs).
  cbn [tell nspawn trace]. rewrite sleeps_app, (sleeps_logs _ Hlogs), app_nil_r.
  lia.
Qed.

Lemma costs_unchanged {A} (m : M A) : (forall w, snd (m w) = w) -> costs 0 0 m.
Proof. intros Hm w. rewrite Hm. lia. Qed.

Lemma costs_send_message chat text : costs 0 0 (send_message chat text).
Proof.
  intros w. rewrite send_message_run. cbn [snd tell nspawn trace].
  rewrite sleeps_app. cbn [sleeps]. rewrite app_nil_r. lia.
Qed.

Lemma costs_send_document chat path : costs 0 0 (send_document chat path).
Proof.
  intros w. unfold send_document. destruct (files w !! path); cbn [snd];
    [|lia].
  rewrite emit_run. cbn [snd tell nspawn trace].
  rewrite sleeps_app. cbn [sleeps]. rewrite app_nil_r. lia.
Qed.

Lemma costs_os_remove path : costs 0 0 (os_remove path).
Proof.
  intros w. rewrite os_remove_run. destruct (files w !! path); cbn [snd];
    [|lia].
  cbn [nspawn trace]. rewrite sleeps_app. cbn [sleeps]. rewrite app_nil_r. lia.
Qed.

Lemma costs_communicate command : costs 1 0 (communicate command).
Proof.
  intros w. unfold communicate. destruct (tool _ _ _) as [p fs'].
  cbn [snd nspawn trace]. rewrite sleeps_app. cbn [sleeps].
  rewrite app_nil_r. lia.
Qed.

Lemma costs_fetch url : costs 3 2 (fetch_youtube_details url 3 5).
Proof.
  intros w. unfold fetch_youtube_details.
  apply (fetch_attempts_bounded url 3 5 3 0 w). reflexivity.
Qed.

Lemma costs_download_audio url output_path :
  costs 1 0 (download_audio url output_path).
Proof.
  unfold download_audio.
  apply (costs_bind 0 0 1 0); [apply costs_only_logs, ol_log|]. intros _.
  apply (costs_bind 1 0 0 0); [apply costs_communicate|]. intros _.
  apply (costs_bind 0 0 0 0); [now apply costs_unchanged|]. intros found.
  destruct found; apply costs_only_logs, ol_log.
Qed.

Lemma costs_transcribe_audio audio_path output_dir youtube_url :
  costs 1 0 (transcribe_audio audio_path output_dir youtube_url).
Proof.
  unfold transcribe_audio.
  apply (costs_bind 0 0 1 0); [apply costs_only_logs, ol_log|]. intros _.
  apply (costs_bind 1 0 0 0); [apply costs_communicate|]. intros p.
  apply (costs_bind 0 0 0 0).
  - apply costs_only_logs. destruct (negb _); [|apply ol_log].
    apply ol_bind; [apply ol_log|]. intros _.
    apply ol_bind; [apply ol_decode|]. intros msg. apply ol_log.
  - intros _. apply costs_only_logs, ol_verify_files.
Qed.

Lemma costs_deliver_and_clean_up chat audio_path created :
  costs 0 0 (deliver_and_clean_up chat audio_path created).
Proof.
  unfold deliver_and_clean_up. destruct created as [|item created].
  - apply (costs_bind 0 0 0 0); [apply costs_send_message|]. intros _.
    apply costs_os_remove.
  - apply (costs_bind 0 0 0 0); [apply costs_send_message|]. intros _.
    apply (costs_bind 0 0 0 0).
    + generalize (item :: created). intros items.
      induction items as [|x items IH]; cbn [for_each].
      * now apply costs_unchanged.
      * apply (costs_bind 0 0 0 0); [apply costs_send_document|].
        intros _. exact IH.
    + intros _. apply (costs_bind 0 0 0 0); [apply costs_os_remove|].
      intros _. apply costs_send_message.
Qed.

Lemma costs_process_url chat url : costs 5 2 (process_url chat url).
Proof.
  unfold process_url. destruct (negb _).
  { eapply costs_weaken; [apply costs_send_message | lia | lia]. }
  apply (costs_bind 0 0 5 2); [apply costs_send_message|]. intros _.
  apply (costs_bind 0 0 5 2); [now apply costs_unchanged|]. intros video_id.
  apply (costs_bind 0 0 5 2); [apply costs_send_message|]. intros _.
  apply (costs_bind 3 2 2 0); [apply costs_fetch|]. intros [d|].
  2: { eapply costs_weaken; [apply costs_send_message | lia | lia]. }
  apply (costs_bind 0 0 2 0); [apply costs_send_message|]. intros _.
  apply (costs_bind 1 0 1 0); [apply costs_download_audio|]. intros _.
  apply (costs_bind 0 0 1 0); [now apply costs_unchanged|]. intros found.
  destruct (negb found).
  { eapply costs_weaken; [apply costs_send_message | lia | lia]. }
  apply (costs_bind 0 0 1 0); [apply costs_send_message|]. intros _.
  apply (costs_bind 1 0 0 0); [apply costs_transcribe_audio|]. intros created.
  apply costs_deliver_and_clean_up.
Qed.

(** X22. Whatever the programs do and however the run ends, one URL of
    a message starts at most five processes (three for the metadata, one
    download, one transcription) and sleeps at most twice; a message
    in which n URLs are found costs at most 5n processes and 2n
    sleeps. *)
Theorem message_effort_bounded (message_text : string) chat :
  (forall url, costs 5 2 (process_url chat url)) /\
  costs (5 * length (findall URL_REGEX message_text))
        (2 * length (findall URL_REGEX message_text))
        (process_url_message message_text chat).
Proof.
  split; [apply costs_process_url|].
  unfold process_url_message.
  induction (findall URL_REGEX message_text) as [|url urls IH];
    cbn [for_each length].
  - now apply costs_unchanged.
  - eapply costs_weaken.
    + apply (costs_bind 5 2); [apply costs_process_url|]. intros _. exact IH.
    + lia.
    + lia.
Qed.

End Coverage.

(* --------------------------------------------------------------------- *)
(* Concrete runs for the further facts                                    *)
(* --------------------------------------------------------------------- *)

Lemma format_duration_int_witness :
  format_duration (E := Scenario.env Scenario.studio) (JInt 59)
    = Ok "0m 59s" /\
  format_duration (E := Scenario.env Scenario.studio) (JInt 7325)
    = Ok "2h 2m 5s".
Proof.
  split.
  - apply (format_duration_int (E := Scenario.env Scenario.studio) 59). lia.
  - apply (format_duration_int (E := Scenario.env Scenario.studio) 7325). lia.
Defined.

Lemma format_duration_type_error_witness :
  format_duration (E := Scenario.env Scenario.studio) (JStr "3:20")
    = Raise TypeError.
Proof.
  apply (format_duration_type_error
           (E := Scenario.env Scenario.studio) (JStr "3:20"));
    reflexivity.
Defined.

Lemma fetch_exhausts_retries_witness :
  exists w',
    fetch_youtube_details (E := Scenario.env Cases.outage) "u" 3 5 Scenario.w0
      = (Ok None, w') /\
    nspawn w' = 3%nat /\ sleeps (trace w') = [5; 10].
Proof.
  destruct (fetch_exhausts_retries (E := Scenario.env Cases.outage)
              "u" 3 5 Scenario.w0) as (w' & Hrun & Hspawn & Hsleeps & _).
  - intros n fs. split; [discriminate|]. split; [discriminate|].
    eexists. vm_compute. reflexivity.
  - lia.
  - exists w'. split; [exact Hrun|]. split; [exact Hspawn | exact Hsleeps].
Defined.

Lemma fetch_effort_bounded_witness :
  fetch_youtube_details (E := Scenario.env Scenario.flaky) "u" 0 5 Scenario.w0
    = (Ok None, Scenario.w0).
Proof.
  apply (fetch_effort_bounded (E := Scenario.env Scenario.flaky)
           "u" 0 5 Scenario.w0). lia.
Defined.

Lemma fetch_non_object_raises_witness :
  fetch_youtube_details (E := Scenario.env Cases.listing) "u" 3 5 Scenario.w0
    = (Raise AttributeError,
       mk_world ∅ 1 [EvSpawn (details_command "u")]).
Proof.
  pose proof (fetch_non_object_raises (E := Scenario.env Cases.listing)
                "u" 3 5 2 0 Scenario.w0
                (mk_completed 0 (Scenario.bytes_of "[1, 2]") []) ∅
                "[1, 2]" (JList [JInt 1; JInt 2])
                eq_refl (or_intror eq_refl) eq_refl eq_refl
                ltac:(discriminate)) as [_ Htop].
  apply Htop. lia.
Defined.

Lemma fetch_returns_filtered_details_witness :
  exists d w' p text items,
    fetch_youtube_details (E := Scenario.env Scenario.flaky) "u" 3 1 Scenario.w0
      = (Ok (Some d), w') /\
    bytes_decode (Env := Scenario.env Scenario.flaky) (stdout p) = Some text /\
    json_loads (Env := Scenario.env Scenario.flaky) text = inr (JDict items) /\
    title d = dict_get items "title" (JStr "No title available").
Proof.
  destruct (fetch_youtube_details (E := Scenario.env Scenario.flaky)
              "u" 3 1 Scenario.w0) as [r w'] eqn:Hrun.
  assert (Hsome : exists d, r = Ok (Some d)).
  { vm_compute in Hrun. injection Hrun as <- _. eexists. reflexivity. }
  destruct Hsome as (d & ->).
  destruct (fetch_returns_filtered_details
              (E := Scenario.env Scenario.flaky) _ _ _ _ _ _ Hrun)
    as (_ & _ & p & text & items & _ & _ & _ & _ & _ & Hdec & Hjson & _ & _
        & _ & Htitle & _).
  exists d, w', p, text, items. auto.
Defined.

Lemma fetch_fills_placeholders_witness :
  exists d,
    fst (fetch_youtube_details (E := Scenario.env Cases.empty_object)
           "u" 3 5 Scenario.w0) = Ok (Some d) /\
    title d = JStr "No title available" /\
    tags d = JList [JStr "No tags available"].
Proof.
  eexists. split.
  - apply (fetch_fills_placeholders (E := Scenario.env Cases.empty_object)
             "u" 3 5 2 0 Scenario.w0
             (mk_completed 0 (Scenario.bytes_of "{}") []) ∅ "{}" []
             eq_refl (or_intror eq_refl) eq_refl eq_refl).
    intros key _ [].
  - split; reflexivity.
Defined.

Lemma fetch_reads_output_unless_both_fail_witness :
  exists d w',
    fetch_youtube_details (E := Scenario.env Cases.killed) "u" 3 5 Scenario.w0
      = (Ok (Some d), w') /\
    sleeps (trace w') = [] /\ nspawn w' = 1%nat.
Proof.
  eexists _, _. split.
  - apply (fetch_reads_output_unless_both_fail
             (E := Scenario.env Cases.killed) "u" 3 5 Scenario.w0
             (mk_completed (-9) (Scenario.bytes_of (Scenario.metadata "61")) [])
             ∅ (Scenario.metadata "61")
             [("title", JStr "Demo"); ("duration", JInt 61)] "1m 1s"
             eq_refl (or_introl eq_refl) eq_refl eq_refl eq_refl).
    lia.
  - split; reflexivity.
Defined.

Lemma canonical_url_round_trip_witness :
  extract_youtube_video_id "https://www.youtube.com/watch?v=dQw4w9WgXcQ"
    = Ok (Some "dQw4w9WgXcQ").
Proof.
  apply (canonical_url_round_trip "youtu.be/dQw4w9WgXcQ?t=3" "dQw4w9WgXcQ").
  vm_compute. reflexivity.
Defined.

Lemma get_description_snippet_prefix_witness :
  exists snippet rest,
    get_description_snippet (E := Scenario.env Scenario.studio)
      (JStr ("one" +:+ nl +:+ "two")) 30 = Ok (JStr snippet) /\
    "one" +:+ nl +:+ "two" = snippet +:+ rest /\
    snippet = "one" +:+ nl +:+ "two".
Proof.
  destruct (get_description_snippet_prefix
              (E := Scenario.env Scenario.studio)
              (JStr ("one" +:+ nl +:+ "two")) 30)
    as (snippet & rest & Hrun & Hprefix & Hfits).
  exists snippet, rest. split; [exact Hrun|]. split; [exact Hprefix|].
  apply Hfits. vm_compute. lia.
Defined.

Lemma get_description_snippet_lines_witness :
  exists snippet,
    get_description_snippet (E := Scenario.env Scenario.studio)
      (JStr ("one" +:+ nl +:+ "two" +:+ nl +:+ "three")) 2 = Ok (JStr snippet) /\
    split_on (ascii_of_nat 10) snippet = ["one"; "two"].
Proof.
  destruct (get_description_snippet_lines
              (E := Scenario.env Scenario.studio)
              ("one" +:+ nl +:+ "two" +:+ nl +:+ "three") 2 ltac:(lia))
    as (snippet & Hrun & Hlines & _).
  exists snippet. split; [exact Hrun | exact Hlines].
Defined.

Lemma found_urls_shape_witness :
  exists scheme body before rest,
    "https://youtu.be/dQw4w9WgXcQ" = scheme +:+ body /\
    "see https://youtu.be/dQw4w9WgXcQ now"
      = before +:+ "https://youtu.be/dQw4w9WgXcQ" +:+ rest /\
    stops CNonSpace rest.
Proof.
  destruct (found_urls_shape
              "see https://youtu.be/dQw4w9WgXcQ now"
              "https://youtu.be/dQw4w9WgXcQ")
    as (scheme & body & before & rest & Hurl & _ & _ & _ & Htext & Hstop).
  - vm_compute. now left.
  - exists scheme, body, before, rest. auto.
Defined.

Lemma notifications_in_order_witness :
  exists shown w',
    process_url (E := Scenario.env Scenario.studio) 7
      "https://youtu.be/dQw4w9WgXcQ" Scenario.w0 = (Ok tt, w') /\
    messages (trace w') =
      ["Processing YouTube URL...";
       "Fetching YouTube video details...";
       "Title: " +:+ shown +:+ nl +:+ "Downloading audio for transcription...";
       "Transcribing audio...";
       "Sending transcription files...";
       "There ya go, have a nice day! :-)"].
Proof.
  destruct studio_transcribed as (w3 & Hreach & _ & Haudio).
  destruct (notifications_in_order (E := Scenario.env Scenario.studio)
              _ _ _ _ _ _ Hreach ltac:(rewrite Haudio; eauto))
    as (shown & w' & Hrun & Hmessages).
  exists shown, w'. split; [exact Hrun | exact Hmessages].
Defined.

Lemma fetch_failure_ends_iteration_witness :
  exists w1,
    process_url (E := Scenario.env Cases.outage) 7
      "https://youtu.be/dQw4w9WgXcQ" Scenario.w0
    = (Ok tt, tell w1 [EvSendMessage 7 "Failed to fetch video details."]).
Proof.
  eexists.
  eapply (fetch_failure_ends_iteration (E := Scenario.env Cases.outage)
            7 "https://youtu.be/dQw4w9WgXcQ" []).
  - vm_compute. reflexivity.
  - vm_compute. reflexivity.
Defined.

Lemma download_failure_ends_iteration_witness :
  exists w2,
    process_url (E := Scenario.env Cases.no_audio) 7
      "https://youtu.be/dQw4w9WgXcQ" Scenario.w0
    = (Ok tt, tell w2 [EvSendMessage 7 "Audio file could not be downloaded."]).
Proof.
  assert (Hreach : exists w2,
    downloaded (E := Scenario.env Cases.no_audio) 7
      "https://youtu.be/dQw4w9WgXcQ" Scenario.w0
      "https://www.youtube.com/watch?v=dQw4w9WgXcQ" "dQw4w9WgXcQ.mp3" w2 /\
    files w2 !! "dQw4w9WgXcQ.mp3" = None).
  { eexists. split.
    - unfold downloaded. do 4 eexists. cbv zeta.
      split; [vm_compute; reflexivity|].
      split; [vm_compute; reflexivity|].
      split; [vm_compute; reflexivity|].
      split; vm_compute; reflexivity.
    - vm_compute. reflexivity. }
  destruct Hreach as (w2 & Hreach & Hnone).
  exists w2.
  apply (download_failure_ends_iteration
           (E := Scenario.env Cases.no_audio) 7 _ [] _ _ _ _ Hreach Hnone).
Defined.

Lemma undecodable_stderr_aborts_message_witness :
  fst (process_url_message (E := Scenario.env Cases.crash)
         "https://youtu.be/dQw4w9WgXcQ https://youtu.be/aaaaaaaaaaa" 7
         Scenario.w0)
    = Raise UnicodeDecodeError /\
  files (snd (process_url_message (E := Scenario.env Cases.crash)
                "https://youtu.be/dQw4w9WgXcQ https://youtu.be/aaaaaaaaaaa" 7
                Scenario.w0)) !! "dQw4w9WgXcQ.mp3" = Some 4096%N.
Proof.
  assert (Hreach : exists w2,
    downloaded (E := Scenario.env Cases.crash) 7
      "https://youtu.be/dQw4w9WgXcQ" Scenario.w0
      "https://www.youtube.com/watch?v=dQw4w9WgXcQ" "dQw4w9WgXcQ.mp3" w2 /\
    files w2 !! "dQw4w9WgXcQ.mp3" = Some 4096%N /\
    tool (Env := Scenario.env Cases.crash) (nspawn w2)
      ["whisper"; "dQw4w9WgXcQ.mp3"; "--output_dir"; "transcriptions"]
      (files w2)
    = (mk_completed 1 [] [Byte.xff],
       <["dQw4w9WgXcQ.mp3" := 4096%N]> ∅)).
  { eexists. split.
    - unfold downloaded. do 4 eexists. cbv zeta.
      split; [vm_compute; reflexivity|].
      split; [vm_compute; reflexivity|].
      split; [vm_compute; reflexivity|].
      split; vm_compute; reflexivity.
    - split; vm_compute; reflexivity. }
  destruct Hreach as (w2 & Hreach & Haudio & Htool).
  destruct (undecodable_stderr_aborts_message
              (E := Scenario.env Cases.crash) 7 _
              ["https://youtu.be/aaaaaaaaaaa"] _ _ _ _ _ _
              Hreach ltac:(rewrite Haudio; eauto) Htool
              ltac:(discriminate) eq_refl) as [_ Hall].
  unfold process_url_message.
  replace (findall URL_REGEX
             "https://youtu.be/dQw4w9WgXcQ https://youtu.be/aaaaaaaaaaa")
    with ["https://youtu.be/dQw4w9WgXcQ"; "https://youtu.be/aaaaaaaaaaa"]
    by (vm_compute; reflexivity).
  rewrite Hall. cbn [fst snd files]. split; [reflexivity|].
  vm_compute. reflexivity.
Defined.

(** With the programs of [Cases.devour], the iteration for a short link
    gets a txt transcript back and finds the audio file gone. *)
Lemma devour_transcribed :
  exists w3,
    transcribed (E := Scenario.env Cases.devour) 7
      "https://youtu.be/dQw4w9WgXcQ" Scenario.w0 "dQw4w9WgXcQ.mp3"
      [("txt", "transcriptions/dQw4w9WgXcQ.txt")] w3 /\
    files w3 !! "dQw4w9WgXcQ.mp3" = None.
Proof.
  eexists. split.
  - unfold transcribed. do 5 eexists. cbv zeta.
    split; [vm_compute; reflexivity|].
    split; [vm_compute; reflexivity|].
    split; [vm_compute; reflexivity|].
    split; [vm_compute; reflexivity|].
    split; [vm_compute; eexists; reflexivity|].
    vm_compute. reflexivity.
  - vm_compute. reflexivity.
Qed.

Lemma cleanup_of_missing_audio_raises_witness :
  fst (process_url (E := Scenario.env Cases.devour) 7
         "https://youtu.be/dQw4w9WgXcQ" Scenario.w0)
    = Raise (FileNotFoundError "dQw4w9WgXcQ.mp3").
Proof.
  destruct devour_transcribed as (w3 & Hreach & Hnone).
  destruct (cleanup_of_missing_audio_raises
              (E := Scenario.env Cases.devour) 7 _ [] _ _ _ _ Hreach Hnone)
    as [Hrun _].
  rewrite Hrun. reflexivity.
Defined.

Lemma transcripts_named_after_id_witness :
  fst (transcribe_audio (E := Scenario.env Scenario.studio)
         "dQw4w9WgXcQ.mp3" "transcriptions" "u" Scenario.w0)
  = Ok [("txt", "transcriptions/dQw4w9WgXcQ.txt");
        ("srt", "transcriptions/dQw4w9WgXcQ.srt")].
Proof.
  assert (Htool :
    tool (Env := Scenario.env Scenario.studio) (nspawn Scenario.w0)
      ["whisper"; "dQw4w9WgXcQ" +:+ ".mp3"; "--output_dir"; "transcriptions"]
      (files Scenario.w0)
    = (mk_completed 1 [] (Scenario.bytes_of "FutureWarning"),
       <["transcriptions/dQw4w9WgXcQ.srt" := 20%N]>
         (<["transcriptions/dQw4w9WgXcQ.txt" := 10%N]> ∅)))
    by (vm_compute; reflexivity).
  pose proof (transcripts_named_after_id (E := Scenario.env Scenario.studio)
                "dQw4w9WgXcQ" "transcriptions" "u" Scenario.w0 _ _
                eq_refl eq_refl Htool
                (or_intror (ex_intro _ "FutureWarning" eq_refl))) as Hrun.
  etransitivity; [exact Hrun|]. vm_compute. reflexivity.
Defined.

Lemma message_without_colon_is_ignored_witness :
  process_url_message (E := Scenario.env Scenario.studio)
    "any video of cats" 7 Scenario.w0 = (Ok tt, Scenario.w0).
Proof.
  apply (message_without_colon_is_ignored
           (E := Scenario.env Scenario.studio) "any video of cats" 7
           Scenario.w0).
  reflexivity.
Defined.
